(** * pymbar: equal-population binning, the histogram consistency check and
      the dataset helpers

    A shallow embedding of

    - [construct_nonuniform_bins] and the per-state part of [main] in
      [examples/constant-force-optical-trap/force-bias-optical-trap.py];
    - [get_sn], [save] and [load_from_hdf] in
      [pymbar/testsystems/pymbar_datasets.py].

    The Python code computes with IEEE 754 binary64 numbers.  Every
    definition below that touches such numbers is written once, over an
    interface [Arith] of the operations the code uses.  Its instance
    [binary64] runs the operations of the machine (Rocq's primitive floats,
    bit for bit what CPython and numpy compute).  The statements about the
    program are proved for [binary64], or for every [Arith], [binary64]
    among them.  A second instance, [exactR], reads the same operations over
    the real numbers, without rounding; it is not the program, and serves to
    tell what rounding is responsible for. *)

From Stdlib Require Import ZArith List Lia Reals Lra Floats Ascii.
From stdpp Require Import base list gmap strings sorting.

Open Scope Z_scope.

(** ** Python exceptions and the error monad *)

Inductive py_error : Set :=
  | ValueError
  | IndexError
  | OverflowError
  | ZeroDivisionError
  | IOError
  | NodeError
  | NoSuchNodeError
  | TypeError.

(** [inl e]: the call raised [e]; [inr v]: it returned [v]. *)
Definition exc (A : Type) : Type := (py_error + A)%type.

Definition raise {A : Type} (e : py_error) : exc A := inl e.

#[global] Instance exc_ret : MRet exc := λ A x, inr x.
#[global] Instance exc_bind : MBind exc := λ A B f m,
  match m with
  | inl e => inl e
  | inr x => f x
  end.
#[global] Instance exc_fmap : FMap exc := λ A B f m,
  match m with
  | inl e => inl e
  | inr x => inr (f x)
  end.

(** A [for] loop over the items [l], threading the loop state [s]; the first
    exception leaves the loop. *)
Fixpoint for_each {St I : Type} (body : St → I → exc St) (s : St) (l : list I)
  : exc St :=
  match l with
  | [] => mret s
  | i :: l' => s' ← body s i; for_each body s' l'
  end.

(** [range(n)]: empty when [n <= 0]. *)
Definition py_range (n : Z) : list Z := seqZ 0 n.

(** ** The numbers of the code *)

Record Arith : Type := MkArith {
  num : Type;
  zero : num;                       (* 0.0, the fill value of np.zeros *)
  one : num;                        (* the literal 1.0 *)
  two : num;                        (* the literal 2.0 *)
  eps : num;                        (* the literal 1.0e-5 *)
  add : num → num → num;
  sub : num → num → num;
  mul : num → num → num;
  div : num → num → num;            (* numpy's /: no exception *)
  opp : num → num;
  ltb : num → num → bool;
  eqb : num → num → bool;
  isnan : num → bool;
  of_int : Z → exc num;             (* float(n), also an int stored in a float array *)
  to_int : num → exc Z;             (* int(x): truncation towards zero *)
}.

(** The functions of the C library that numpy calls. *)
Record Libm (A : Arith) : Type := MkLibm {
  np_sqrt : num A → num A;
  np_exp : num A → num A;
  np_log : num A → num A;
}.
Arguments np_sqrt {A} _ _.
Arguments np_exp {A} _ _.
Arguments np_log {A} _ _.

(** *** binary64, as the machine computes *)

(** [float(z)] of a Python int: the nearest binary64 number, ties to even;
    [OverflowError] when [z] is beyond the finite range. *)
Definition float_of_Z (z : Z) : exc float :=
  let f := SF2Prim (binary_normalize prec emax z 0 false) in
  if is_infinity f then raise OverflowError else mret f.

(** [int(f)]: the integer part; [ValueError] on NaN, [OverflowError] on an
    infinity. *)
Definition int_of_float (f : float) : exc Z :=
  match Prim2SF f with
  | S754_zero _ => mret 0
  | S754_finite s m e =>
      let mag := if 0 <=? e then Z.shiftl (Zpos m) e
                 else Z.shiftr (Zpos m) (- e) in
      mret (if s then - mag else mag)
  | S754_infinity _ => raise OverflowError
  | S754_nan => raise ValueError
  end.

Definition binary64 : Arith := {|
  num := float;
  zero := 0%float;
  one := 1%float;
  two := 2%float;
  eps := 0x1.4f8b588e368f1p-17%float;     (* the binary64 number 1.0e-5 denotes *)
  add := PrimFloat.add;
  sub := PrimFloat.sub;
  mul := PrimFloat.mul;
  div := PrimFloat.div;
  opp := PrimFloat.opp;
  ltb := PrimFloat.ltb;
  eqb := PrimFloat.eqb;
  isnan := PrimFloat.is_nan;
  of_int := float_of_Z;
  to_int := int_of_float;
|}.

(** The square root is correctly rounded in IEEE 754; [exp] and [log] are
    whatever the C library computes, so they stay parameters. *)
Definition binary64_libm (e l : float → float) : Libm binary64 := {|
  np_sqrt := PrimFloat.sqrt : num binary64 → num binary64;
  np_exp := e;
  np_log := l;
|}.

(** *** The same operations over the reals *)

Definition Rltb (x y : R) : bool := if Rlt_dec x y then true else false.
Definition Reqb (x y : R) : bool := if Req_dec_T x y then true else false.

(** Truncation towards zero. *)
Definition Rtrunc (x : R) : Z := if Rle_dec 0 x then Zfloor x else Zceil x.

Definition exactR : Arith := {|
  num := R;
  zero := 0%R;
  one := 1%R;
  two := 2%R;
  eps := (1 / 100000)%R;
  add := Rplus;
  sub := Rminus;
  mul := Rmult;
  div := Rdiv;
  opp := Ropp;
  ltb := Rltb;
  eqb := Reqb;
  isnan := λ _, false;
  of_int := λ z, mret (IZR z);
  to_int := λ x, mret (Rtrunc x);
|}.

Definition real_libm : Libm exactR := {|
  np_sqrt := R_sqrt.sqrt : num exactR → num exactR;
  np_exp := exp;
  np_log := ln;
|}.

(** ** numpy arrays of one dimension, as lists *)

Section Arrays.
Context {T : Type}.

(** Python's index rule for a sequence of length [len]: a negative index
    counts from the end, anything outside raises [IndexError]. *)
Definition np_index (len : nat) (i : Z) : exc nat :=
  if (0 <=? i) && (i <? Z.of_nat len) then mret (Z.to_nat i)
  else if (- Z.of_nat len <=? i) && (i <? 0) then mret (Z.to_nat (i + Z.of_nat len))
  else raise IndexError.

(** [a[i]] *)
Definition np_get (a : list T) (i : Z) : exc T :=
  k ← np_index (length a) i;
  match a !! k with
  | Some v => mret v
  | None => raise IndexError
  end.

(** [a[i] = v] *)
Definition np_set (a : list T) (i : Z) (v : T) : exc (list T) :=
  k ← np_index (length a) i;
  mret (<[k:=v]> a).

(** [a[idx] = v] for an index array [idx] *)
Definition np_set_many (a : list T) (idx : list nat) (v : T) : exc (list T) :=
  for_each (λ a' k, np_set a' (Z.of_nat k) v) a idx.

(** A bound of the slice [a[i:j]]: negative counts from the end, and the
    result is clipped to [0, len]. *)
Definition slice_bound (len : nat) (i : Z) : nat :=
  if i <? 0 then Z.to_nat (Z.max (i + Z.of_nat len) 0)
  else Z.to_nat (Z.min i (Z.of_nat len)).

(** [a[i:j]] *)
Definition py_slice (a : list T) (i j : Z) : list T :=
  let start := slice_bound (length a) i in
  let stop := slice_bound (length a) j in
  take (stop - start)%nat (drop start a).
End Arrays.

Section Numpy.
Context (A : Arith).

(** [np.zeros([n])]: [ValueError] on a negative dimension. *)
Definition np_zeros (n : Z) : exc (list (num A)) :=
  if n <? 0 then raise ValueError
  else mret (replicate (Z.to_nat n) (zero A)).

(** numpy's reductions [min] and [max]: [ValueError] on an empty array, and
    a NaN anywhere is the result. *)
Definition np_min (a : list (num A)) : exc (num A) :=
  match a with
  | [] => raise ValueError
  | x :: a' =>
      mret (fold_left (λ m y, if isnan A m then m else if isnan A y then y
                              else if ltb A y m then y else m) a' x)
  end.

Definition np_max (a : list (num A)) : exc (num A) :=
  match a with
  | [] => raise ValueError
  | x :: a' =>
      mret (fold_left (λ m y, if isnan A m then m else if isnan A y then y
                              else if ltb A m y then y else m) a' x)
  end.

(** [a.sum()], accumulated from left to right.  That is the order in which
    numpy adds an array of fewer than eight numbers; a longer array it adds
    in blocks, which is the same real number and may be another binary64
    number.  The machine evaluations below sum fewer than eight numbers. *)
Definition np_sum (a : list (num A)) : num A :=
  fold_left (add A) a (zero A).

(** The order numpy sorts by: [<], with every NaN after every number. *)
Definition sort_lt (x y : num A) : bool :=
  ltb A x y || (isnan A y && negb (isnan A x)).

(** Insert index [i] into the index list [l], sorted by the values of [a];
    [i] goes before the first index whose value is not smaller. *)
Fixpoint insert_index (a : list (num A)) (i : nat) (l : list nat) : list nat :=
  match l with
  | [] => [i]
  | j :: l' =>
      match a !! j, a !! i with
      | Some xj, Some xi =>
          if sort_lt xj xi then j :: insert_index a i l' else i :: l
      | _, _ => i :: l
      end
  end.

(** [a.argsort()]: the indices of [a] in ascending order of value, equal
    values in their original order. *)
Definition argsort (a : list (num A)) : list nat :=
  foldr (insert_index a) [] (seq 0 (length a)).

(** Python's [x / y] on floats: [ZeroDivisionError] when [y] is zero. *)
Definition py_div (x y : num A) : exc (num A) :=
  if eqb A y (zero A) then raise ZeroDivisionError else mret (div A x y).
End Numpy.

(** ** [construct_nonuniform_bins] *)

Record bins (A : Arith) : Type := MkBins {
  bin_left_boundary_i : list (num A);
  bin_center_i : list (num A);
  bin_width_i : list (num A);
  bin_n : list (num A);
}.
Arguments MkBins {A} _ _ _ _.
Arguments bin_left_boundary_i {A} _.
Arguments bin_center_i {A} _.
Arguments bin_width_i {A} _.
Arguments bin_n {A} _.

Section Binning.
Context (A : Arith).

(** [int(float(N) / float(nbins) * float(k))] *)
Definition span_index (N nbins k : Z) : exc Z :=
  fN ← of_int A N;
  fB ← of_int A nbins;
  q ← py_div A fN fB;
  fk ← of_int A k;
  to_int A (mul A q fk).

(** One turn of the first loop: the left boundary of bin [bin_index] and
    the assignment of the samples of its span. *)
Definition assign_span (x_n : list (num A)) (sorted_indices : list nat)
    (nbins : Z) (st : list (num A) * list (num A)) (bin_index : Z)
  : exc (list (num A) * list (num A)) :=
  let N := Z.of_nat (length x_n) in
  first_index ← span_index N nbins bin_index;
  last_index ← span_index N nbins (bin_index + 1);
  k ← np_get sorted_indices first_index;
  x ← np_get x_n (Z.of_nat k);
  left_i ← np_set st.1 bin_index x;
  b ← of_int A bin_index;
  assigned ← np_set_many st.2 (py_slice sorted_indices first_index last_index) b;
  mret (left_i, assigned).

(** One turn of the second loop: centre and width of bin [bin_index]. *)
Definition center_width (left_i : list (num A))
    (st : list (num A) * list (num A)) (bin_index : Z)
  : exc (list (num A) * list (num A)) :=
  l ← np_get left_i bin_index;
  r ← np_get left_i (bin_index + 1);
  centers ← np_set st.1 bin_index (div A (add A l r) (two A));
  r' ← np_get left_i (bin_index + 1);
  l' ← np_get left_i bin_index;
  widths ← np_set st.2 bin_index (sub A r' l');
  mret (centers, widths).

Definition construct_nonuniform_bins (x_n : list (num A)) (nbins : Z)
  : exc (bins A) :=
  let N := Z.of_nat (length x_n) in
  let sorted_indices := argsort A x_n in
  left0 ← np_zeros A (nbins + 1);
  _ ← np_zeros A (nbins + 1);
  centers0 ← np_zeros A nbins;
  widths0 ← np_zeros A nbins;
  assigned0 ← np_zeros A N;
  x_min ← np_min A x_n;
  x_max ← np_max A x_n;
  let x_max := add A x_max (mul A (sub A x_max x_min) (eps A)) in
  '(left_i, assigned) ← for_each (assign_span x_n sorted_indices nbins)
                        (left0, assigned0) (py_range nbins);
  left_i ← np_set left_i nbins x_max;
  '(centers, widths) ← for_each (center_width left_i)
                         (centers0, widths0) (py_range nbins);
  mret (MkBins left_i centers widths assigned).
End Binning.

(** ** The per-state consistency check of [main] (the body of the loop over
      the states [l]) *)

Section Arrays2.
Context {T : Type}.

(** [a[idx]] for an index array [idx] *)
Fixpoint np_take (a : list T) (idx : list nat) : exc (list T) :=
  match idx with
  | [] => mret []
  | k :: idx' =>
      v ← np_get a (Z.of_nat k);
      vs ← np_take a idx';
      mret (v :: vs)
  end.

(** [a[idx] = vals] for an index array [idx] and as many values *)
Fixpoint np_put (a : list T) (idx : list nat) (vals : list T) : exc (list T) :=
  match idx, vals with
  | [], [] => mret a
  | k :: idx', v :: vals' =>
      a' ← np_set a (Z.of_nat k) v;
      np_put a' idx' vals'
  | _, _ => raise ValueError
  end.

(** The positions, from [k] on, at which [c] holds. *)
Fixpoint where_from (k : nat) (c : list bool) : list nat :=
  match c with
  | [] => []
  | b :: c' => if b then k :: where_from (S k) c' else where_from (S k) c'
  end.

(** [np.where(c)[0]] *)
Definition np_where (c : list bool) : list nat := where_from 0 c.
End Arrays2.

(** A line of an output file: three numbers ([{:8.3f} {:8.3f} {:8.3f}]). *)
Definition record (A : Arith) : Type := (num A * num A * num A)%type.

Record observed_pmf (A : Arith) : Type := MkObservedPmf {
  indices : list nat;
  pmf_i_observed : list (num A);
  dpmf_i_observed : list (num A);
  pmf_observed_out : list (record A);     (* pmf-observed-<l>.out *)
}.
Arguments MkObservedPmf {A} _ _ _ _.
Arguments indices {A} _.
Arguments pmf_i_observed {A} _.
Arguments dpmf_i_observed {A} _.
Arguments pmf_observed_out {A} _.

Record histograms (A : Arith) : Type := MkHistograms {
  p_i : list (num A);
  N_i_observed : list (num A);
  dN_i_observed : list (num A);
  N_total : num A;                         (* N = N_i_observed.sum() *)
  N_i_expected : list (num A);
  dN_i_expected : list (num A);
}.
Arguments MkHistograms {A} _ _ _ _ _ _.
Arguments p_i {A} _.
Arguments N_i_observed {A} _.
Arguments dN_i_observed {A} _.
Arguments N_total {A} _.
Arguments N_i_expected {A} _.
Arguments dN_i_expected {A} _.

Section Checker.
Context (A : Arith) (L : Libm A).

(** [a.mean()] *)
Definition np_mean (a : list (num A)) : exc (num A) :=
  n ← of_int A (Z.of_nat (length a));
  mret (div A (np_sum A a) n).

(** [p_i = np.exp(-f_i + f_i.min()); p_i /= p_i.sum()] *)
Definition bin_probabilities (f_i : list (num A)) : exc (list (num A)) :=
  m ← np_min A f_i;
  let p := (λ f, np_exp L (add A (opp A f) m)) <$> f_i in
  let s := np_sum A p in
  mret ((λ x, div A x s) <$> p).

(** [for t in range(T_k[l]): bin_index = bin_kt[l, t];
     N_i_observed[bin_index] += 1] *)
Definition count_sample (bin_kt : list (list Z)) (l : Z)
    (N_i : list (num A)) (t : Z) : exc (list (num A)) :=
  row ← np_get bin_kt l;
  bin_index ← np_get row t;
  c ← np_get N_i bin_index;
  np_set N_i bin_index (add A c (one A)).

(** [dN_i_observed[bin_index] = np.sqrt(g_k[l] * N_i_observed[bin_index] *
     (1.0 - N_i_observed[bin_index] / float(N)))] *)
Definition count_uncertainty (g_k : list (num A)) (l : Z)
    (N_i : list (num A)) (N : num A)
    (dN_i : list (num A)) (bin_index : Z) : exc (list (num A)) :=
  g ← np_get g_k l;
  n ← np_get N_i bin_index;
  n' ← np_get N_i bin_index;
  np_set dN_i bin_index
    (np_sqrt L (mul A (mul A g n) (sub A (one A) (div A n' N)))).

(** Lines 270-288: the bin probabilities of state [l] from the estimator's
    [f_i], the observed histogram of the raw trajectory of state [l] with
    its uncertainties, and the expected histogram. *)
Definition compare_histograms (NBINS : Z) (bin_kt : list (list Z))
    (T_k : list Z) (g_k : list (num A)) (l : Z) (f_i : list (num A))
  : exc (histograms A) :=
  p ← bin_probabilities f_i;
  N_i ← np_zeros A NBINS;
  dN_i ← np_zeros A NBINS;
  T ← np_get T_k l;
  N_i ← for_each (count_sample bin_kt l) N_i (py_range T);
  let N := np_sum A N_i in
  dN_i ← for_each (count_uncertainty g_k l N_i N) dN_i (py_range NBINS);
  let N_exp := (λ x, mul A N x) <$> p in
  let dN_exp := (λ x, np_sqrt L (mul A (mul A N x) (sub A (one A) x))) <$> p in
  mret (MkHistograms p N_i dN_i N N_exp dN_exp).

(** Lines 321-336: the PMF from the observed counts, and the records written
    to [pmf-observed-<l>.out]. *)
Definition observed_pmf_of (NBINS : Z) (N_i dN_i : list (num A))
    (bin_width_i bin_center_i : list (num A)) : exc (observed_pmf A) :=
  let idx := np_where ((λ n, ltb A (zero A) n) <$> N_i) in
  pmf ← np_zeros A NBINS;
  dpmf ← np_zeros A NBINS;
  counts ← np_take N_i idx;
  widths ← np_take bin_width_i idx;
  pmf ← np_put pmf idx
          (zip_with (λ n w, add A (opp A (np_log L n)) (np_log L w)) counts widths);
  cur ← np_take pmf idx;
  m ← np_mean cur;
  cur ← np_take pmf idx;
  pmf ← np_put pmf idx ((λ x, sub A x m) <$> cur);
  dcounts ← np_take dN_i idx;
  counts ← np_take N_i idx;
  dpmf ← np_put dpmf idx (zip_with (div A) dcounts counts);
  out ← for_each (λ lines i,
           c ← np_get bin_center_i (Z.of_nat i);
           v ← np_get pmf (Z.of_nat i);
           d ← np_get dpmf (Z.of_nat i);
           mret (lines ++ [(c, v, d)])) [] idx;
  mret (MkObservedPmf idx pmf dpmf out).
End Checker.

(** ** [pymbar_datasets]: state inference and the HDF5 round trip *)

(** [np.zeros(n, 'int')] *)
Definition np_zeros_int (n : Z) : exc (list Z) :=
  if n <? 0 then raise ValueError else mret (replicate (Z.to_nat n) 0).

(** Python's [sum] *)
Definition py_sum (l : list Z) : Z := fold_left Z.add l 0.

(** [get_sn]: the loop state is the array [s_n] and the cursor [k]. *)
Definition get_sn (N_k : list Z) : exc (list Z) :=
  let n_states := Z.of_nat (length N_k) in
  s_n ← np_zeros_int (py_sum N_k);
  st ← for_each (λ st i,
          N ← np_get N_k i;
          for_each (λ (st : list Z * Z) (_ : Z),
              s_n' ← np_set st.1 st.2 i;
              mret (s_n', st.2 + 1)) st (py_range N))
        (s_n, 0) (py_range n_states);
  mret st.1.

(** A two-dimensional float64 array: its shape and its items in row order. *)
Record array2d : Type := MkArray2d {
  shape : Z * Z;
  items : list float;
}.

(** What an HDF5 node holds. *)
Inductive ndarray : Type :=
  | Float64_2d (a : array2d)
  | Int64_1d (a : list Z).

Inductive atom : Set := Float64Atom | Int64Atom.

Definition atom_of (x : ndarray) : atom :=
  match x with
  | Float64_2d _ => Float64Atom
  | Int64_1d _ => Int64Atom
  end.

#[global] Instance atom_eq_dec : EqDecision atom.
Proof. solve_decision. Defined.

(** The value of an integer stored in 64 bits, two's complement. *)
Definition to_int64 (z : Z) : Z := (z + 2 ^ 63) mod 2 ^ 64 - 2 ^ 63.

(** Modelled from the spec: [pymbar.utils.ensure_type] is not among the
    sources.  The spec's data contract is a 2D reduced-potential array
    [u_kn[K][N]] and 1D integer arrays [N_k[K]] and [s_n[N]], with mismatched
    lengths an error; so the check converts the items to the requested dtype
    and refuses an array whose shape is not the requested one. *)
Definition ensure_type_float_2d (val : array2d) (want : Z * Z) : exc array2d :=
  if decide (shape val = want) then mret val else raise ValueError.

Definition ensure_type_int64_1d (val : list Z) (want : Z) : exc (list Z) :=
  if Z.of_nat (length val) =? want then mret (to_int64 <$> val)
  else raise ValueError.

(** The files of the working directory, each an HDF5 file: a map from node
    names to arrays.  PyTables itself is outside the repository; the model
    keeps what its interface promises: a node holds the array it was created
    with, a node cannot be created twice, and a missing file or node is an
    error. *)
Definition tables_open_append (fs : gmap string (gmap string ndarray))
    (filename : string) : gmap string ndarray :=
  default ∅ (fs !! filename).

Definition tables_open_read (fs : gmap string (gmap string ndarray))
    (filename : string) : exc (gmap string ndarray) :=
  match fs !! filename with
  | Some f => mret f
  | None => raise IOError
  end.

Definition createCArray (f : gmap string ndarray) (name : string) (a : atom)
    (obj : ndarray) : exc (gmap string ndarray) :=
  if decide (atom_of obj = a) then
    match f !! name with
    | Some _ => raise NodeError
    | None => mret (<[name := obj]> f)
    end
  else raise TypeError.

Definition read_node (f : gmap string ndarray) (name : string) : exc ndarray :=
  match f !! name with
  | Some x => mret x
  | None => raise NoSuchNodeError
  end.

(** [load_from_hdf] *)
Definition load_from_hdf (fs : gmap string (gmap string ndarray))
    (filename : string) : exc (ndarray * ndarray * ndarray) :=
  f ← tables_open_read fs filename;
  u_kn ← read_node f "u_kn";
  N_k ← read_node f "N_k";
  s_n ← read_node f "s_n";
  mret (u_kn, N_k, s_n).

(** [os.path.join(a, b)] of [posixpath]: a [b] that starts with [/] is the
    result; otherwise [b] is appended to [a], after a [/] unless [a] is empty
    or ends with one. *)
Definition starts_with_sep (s : string) : bool :=
  match s with
  | String c _ => Ascii.eqb c "/"%char
  | EmptyString => false
  end.

Fixpoint ends_with_sep (s : string) : bool :=
  match s with
  | EmptyString => false
  | String c EmptyString => Ascii.eqb c "/"%char
  | String _ s' => ends_with_sep s'
  end.

Definition os_path_join (a b : string) : string :=
  if starts_with_sep b then b
  else match a with
       | EmptyString => b
       | _ => if ends_with_sep a then a +:+ b else a +:+ "/" +:+ b
       end.

(** [os.path.join("./", "%s.h5" % name)] *)
Definition hdf_filename (name : string) : string :=
  os_path_join "./" (name +:+ ".h5").

(** [save]: the file system after the call. *)
Definition save (fs : gmap string (gmap string ndarray)) (name : string)
    (u_kn : array2d) (N_k : list Z) (s_n : option (list Z))
  : exc (gmap string (gmap string ndarray)) :=
  let '(n_states, n_samples) := shape u_kn in
  u_kn ← ensure_type_float_2d u_kn (n_states, n_samples);
  N_k ← ensure_type_int64_1d N_k n_states;
  s_n ← match s_n with
        | None => get_sn N_k
        | Some s => mret s
        end;
  s_n ← ensure_type_int64_1d s_n n_samples;
  let f := tables_open_append fs (hdf_filename name) in
  f ← createCArray f "u_kn" Float64Atom (Float64_2d u_kn);
  f ← createCArray f "N_k" Int64Atom (Int64_1d N_k);
  f ← createCArray f "s_n" Int64Atom (Int64_1d s_n);
  mret (<[hdf_filename name := f]> fs).

(** A list of machine floats, read as an array of [binary64]. *)
Definition fl (l : list float) : list (num binary64) := l.

(** ** [main]: the trajectories pooled and binned *)

(** Arrays of two dimensions are lists of rows. *)
Section Arrays2D.
Context {T : Type}.

(** [np.zeros([K, T_max], ...)], with the fill value of the dtype *)
Definition np_full2 (K T_max : Z) (v : T) : exc (list (list T)) :=
  if (K <? 0) || (T_max <? 0) then raise ValueError
  else mret (replicate (Z.to_nat K) (replicate (Z.to_nat T_max) v)).

(** The array after [a[i:j] = v] for a scalar [v] *)
Definition np_fill_slice (a : list T) (i j : Z) (v : T) : list T :=
  let start := slice_bound (length a) i in
  let stop := slice_bound (length a) j in
  take start a ++ replicate (stop - start) v ++ drop (start `max` stop) a.

(** [a[idx]] for the pair [idx] of index arrays that [np.where] returns *)
Fixpoint np_take2 (a : list (list T)) (idx : list (nat * nat)) : exc (list T) :=
  match idx with
  | [] => mret []
  | (k, t) :: idx' =>
      row ← np_get a (Z.of_nat k);
      v ← np_get row (Z.of_nat t);
      vs ← np_take2 a idx';
      mret (v :: vs)
  end.

(** [a[idx] = vals]: the values are converted to the dtype of [a]; one value
    is used for every index, and any other number of values that is not the
    number of indices is refused.  Where [cast] raises (for [int64], on NaN
    and on an infinity) numpy stores an integer it does not specify; [main]
    stores bin indices, which are finite. *)
Definition np_put2 {V : Type} (cast : V → exc T) (a : list (list T))
    (idx : list (nat * nat)) (vals : list V) : exc (list (list T)) :=
  vals' ← (if decide (length vals = length idx) then mret vals
           else match vals with
                | [v] => mret (replicate (length idx) v)
                | _ => raise ValueError
                end);
  for_each (λ a' (p : nat * nat * V),
      row ← np_get a' (Z.of_nat p.1.1);
      c ← cast p.2;
      row' ← np_set row (Z.of_nat p.1.2) c;
      np_set a' (Z.of_nat p.1.1) row') a (zip idx vals').
End Arrays2D.

(** The positions at which a mask of two dimensions holds, row by row,
    the rows numbered from [k]. *)
Fixpoint where2_from (k : nat) (mask : list (list bool)) : list (nat * nat) :=
  match mask with
  | [] => []
  | row :: mask' => ((λ t, (k, t)) <$> np_where row) ++ where2_from (S k) mask'
  end.

(** [np.where(mask)] for a mask of two dimensions *)
Definition np_where2 (mask : list (list bool)) : list (nat * nat) :=
  where2_from 0 mask.

(** [for k in range(0, K): mask_kt[k, 0 : T_k[k]] = True] *)
Definition mask_rows (K : Z) (T_k : list Z) (mask : list (list bool))
  : exc (list (list bool)) :=
  for_each (λ mask k,
      row ← np_get mask k;
      T ← np_get T_k k;
      np_set mask k (np_fill_slice row 0 T true)) mask (py_range K).

(** Lines 155-167 of [main]: the mask of the snapshots read, their indices,
    the binning of the pooled positions, and the bin of every snapshot in
    the layout of the trajectories. *)
Definition bin_trajectories (A : Arith) (x_kt : list (list (num A)))
    (T_k : list Z) (K T_max NBINS : Z) : exc (bins A * list (list Z)) :=
  mask_kt ← np_full2 K T_max false;
  mask_kt ← mask_rows K T_k mask_kt;
  let all_data_indices := np_where2 mask_kt in
  bin_kt ← np_full2 K T_max 0;
  pooled ← np_take2 x_kt all_data_indices;
  res ← construct_nonuniform_bins A pooled NBINS;
  bin_kt ← np_put2 (to_int A) bin_kt all_data_indices (bin_n res);
  mret (res, bin_kt).

(** ** The vocabulary of the statements *)

(** The states in order, state [i0 + j] repeated [N_k[j]] times. *)
Fixpoint blocks (i0 : Z) (N_k : list Z) : list Z :=
  match N_k with
  | [] => []
  | N :: N_k' => replicate (Z.to_nat N) i0 ++ blocks (i0 + 1) N_k'
  end.

(** [N_k[0] + ... + N_k[i-1]] *)
Definition prefix_sum (N_k : list Z) (i : nat) : Z := py_sum (take i N_k).

(** The integers an int64 array can hold. *)
Definition in_int64 (z : Z) : Prop := - 2 ^ 63 ≤ z < 2 ^ 63.

(** [x_n[k]], and [0] outside the array. *)
Definition sample (x_n : list R) (k : nat) : R := default 0%R (x_n !! k).

(** The sample of a given rank. *)
Definition sample_at_rank (x_n : list R) (r : nat) : R :=
  default 0%R (k ← argsort exactR x_n !! r; x_n !! k).

(** [floor(N * i / B)]: the first rank of the span of bin [i]. *)
Definition span_start (N B i : Z) : Z := N * i / B.

(** What holds of the boundaries and the assignments after the turns of the
    first loop for the bins below [b]; [N] is the number of samples. *)
Definition assign_inv (x_n : list R) (N nbins b : Z) (st : list R * list R) : Prop :=
  length st.1 = Z.to_nat (nbins + 1) ∧
  (∀ i, 0 ≤ i < b →
     st.1 !! Z.to_nat i = Some (sample_at_rank x_n (Z.to_nat (span_start N nbins i)))) ∧
  length st.2 = length x_n ∧
  (∀ i (r k : nat), 0 ≤ i < b →
     span_start N nbins i ≤ Z.of_nat r < span_start N nbins (i + 1) →
     argsort exactR x_n !! r = Some k → st.2 !! k = Some (IZR i)).

(** What holds of the centres and the widths after the turns of the second
    loop for the bins below [b]. *)
Definition center_inv (left_i : list R) (nbins b : Z) (st : list R * list R) : Prop :=
  length st.1 = Z.to_nat nbins ∧ length st.2 = Z.to_nat nbins ∧
  ∀ i l r, 0 ≤ i < b →
    left_i !! Z.to_nat i = Some l → left_i !! Z.to_nat (i + 1) = Some r →
    st.1 !! Z.to_nat i = Some ((l + r) / 2)%R ∧ st.2 !! Z.to_nat i = Some (r - l)%R.

(** Each entry is below the next one. *)
Definition strictly_increasing (A : Arith) (l : list (num A)) : Prop :=
  ∀ (i : nat) (x y : num A), l !! i = Some x → l !! S i = Some y → ltb A x y = true.

(** The four arrays of a result: boundaries, centres, widths, assignments. *)
Definition bins_fields {A : Arith} (r : bins A)
  : list (num A) * list (num A) * list (num A) * list (num A) :=
  (bin_left_boundary_i r, bin_center_i r, bin_width_i r, bin_n r).

(** The number of the first [t] samples of [row] that fell in bin [i]. *)
Definition occupancy (row : list Z) (t : nat) (i : Z) : nat :=
  count_occ Z.eq_dec (take t row) i.

(** [n] times [+= 1] on the [0.0] of [np.zeros]. *)
Definition count_up (A : Arith) (n : nat) : num A :=
  Nat.iter n (λ x, add A x (one A)) (zero A).

(** The lines of [pmf-observed-<l>.out]: one for each index, in order. *)
Definition records_of (A : Arith) (bin_center_i pmf dpmf : list (num A))
    (idx : list nat) (out : list (record A)) : Prop :=
  Forall2 (λ i rec, bin_center_i !! i = Some rec.1.1 ∧
                    pmf !! i = Some rec.1.2 ∧ dpmf !! i = Some rec.2) idx out.

(** [N_k[0] + ... + N_k[i-1]] with every negative count taken as [0]: the
    number of entries the loops of [get_sn] write for the states below [i]. *)
Definition written_before (N_k : list Z) (i : nat) : Z :=
  py_sum (Z.max 0 <$> take i N_k).

(** One turn of the inner loop of [get_sn] for state [i]. *)
Definition get_sn_turn (i : Z) (st : list Z * Z) (_ : Z) : exc (list Z * Z) :=
  s_n' ← np_set st.1 st.2 i; mret (s_n', st.2 + 1).

(** [a[k, t]], when both indices are inside *)
Definition lookup2 {T : Type} (a : list (list T)) (k t : nat) : option T :=
  a !! k ≫= (.!! t).

(** The indices of the snapshots read, trajectory by trajectory, the
    trajectories numbered from [k0]. *)
Fixpoint pool_from (k0 : nat) (T_k : list Z) : list (nat * nat) :=
  match T_k with
  | [] => []
  | T :: T_k' => ((λ t, (k0, t)) <$> seq 0 (Z.to_nat T)) ++ pool_from (S k0) T_k'
  end.

(** The row of the mask of a trajectory of [T] snapshots. *)
Definition mask_row (T_max T : Z) : list bool :=
  replicate (Z.to_nat T) true ++ replicate (Z.to_nat (T_max - T)) false.

(** A binary64 number whose sign bit is clear, or a NaN: neither a negative
    number nor [-0.0]. *)
Definition sign_clear (x : spec_float) : bool :=
  match x with
  | S754_zero s | S754_infinity s | S754_finite s _ _ => negb s
  | S754_nan => true
  end.

Definition unsigned (x : float) : bool := sign_clear (Prim2SF x).

(** * Proofs *)

(** ** Loops *)

Lemma for_each_app {St I : Type} (body : St → I → exc St) (s : St) (l1 l2 : list I) :
  for_each body s (l1 ++ l2) = s' ← for_each body s l1; for_each body s' l2.
Proof.
  revert s. induction l1 as [|i l1 IH]; intros s; simpl; [done|].
  destruct (body s i) as [e|s']; simpl; [done|]. apply IH.
Qed.

(** A loop over [range(n)] that keeps an invariant and raises nothing. *)
Lemma for_each_range {St : Type} (body : St → Z → exc St) (Inv : Z → St → Prop)
    (s0 : St) (n : Z) :
  Inv 0 s0 →
  (∀ i s, 0 ≤ i < n → Inv i s → ∃ s', body s i = inr s' ∧ Inv (i + 1) s') →
  ∃ s', for_each body s0 (py_range n) = inr s' ∧ Inv (Z.max n 0) s'.
Proof.
  intros H0 Hstep. unfold py_range.
  destruct (Z.le_gt_cases n 0) as [Hn|Hn].
  { rewrite seqZ_nil by done. exists s0. simpl. by rewrite Z.max_r. }
  rewrite Z.max_l by lia.
  assert (Hk : ∀ k : nat, Z.of_nat k ≤ n →
    ∃ s', for_each body s0 (seqZ 0 (Z.of_nat k)) = inr s' ∧ Inv (Z.of_nat k) s').
  { induction k as [|k IH]; intros Hle.
    - exists s0. by rewrite seqZ_nil.
    - destruct IH as (s & Hs & HI); [lia|].
      destruct (Hstep (Z.of_nat k) s) as (s' & Hb & HI'); [lia|done|].
      exists s'. rewrite seqZ_S, for_each_app, Hs, Z.add_0_l. simpl.
      rewrite Hb. simpl. split; [done|].
      by replace (Z.of_nat (S k)) with (Z.of_nat k + 1) by lia. }
  destruct (Hk (Z.to_nat n)) as (s' & Hs & HI); [lia|].
  rewrite Z2Nat.id in Hs, HI by lia. eauto.
Qed.

(** ** [get_sn] *)

Lemma fold_left_add_acc (l : list Z) (a : Z) : fold_left Z.add l a = a + fold_left Z.add l 0.
Proof.
  revert a. induction l as [|x l IH]; intros a; simpl; [lia|].
  rewrite (IH (a + x)), (IH (0 + x)). lia.
Qed.

Lemma py_sum_cons (x : Z) (l : list Z) : py_sum (x :: l) = x + py_sum l.
Proof. unfold py_sum. simpl. apply fold_left_add_acc. Qed.

Lemma py_sum_app (l1 l2 : list Z) : py_sum (l1 ++ l2) = py_sum l1 + py_sum l2.
Proof.
  induction l1 as [|x l1 IH]; simpl; [done|].
  rewrite !py_sum_cons, IH. lia.
Qed.

Lemma py_sum_nonneg (l : list Z) : Forall (Z.le 0) l → 0 ≤ py_sum l.
Proof.
  induction 1 as [|x l Hx _ IH]; [done|]. rewrite py_sum_cons. lia.
Qed.

Lemma length_blocks (i0 : Z) (N_k : list Z) :
  Forall (Z.le 0) N_k → Z.of_nat (length (blocks i0 N_k)) = py_sum N_k.
Proof.
  intros H. revert i0. induction H as [|N l HN _ IH]; intros i0; simpl; [done|].
  rewrite length_app, length_replicate, py_sum_cons, Nat2Z.inj_add, IH. lia.
Qed.

Lemma prefix_sum_S (N_k : list Z) (i : nat) (N : Z) :
  N_k !! i = Some N → prefix_sum N_k (S i) = prefix_sum N_k i + N.
Proof.
  intros H. unfold prefix_sum. rewrite (take_S_r _ _ _ H), py_sum_app, py_sum_cons.
  change (py_sum []) with 0. lia.
Qed.

Lemma np_index_in_range (len : nat) (i : Z) :
  0 ≤ i < Z.of_nat len → np_index len i = inr (Z.to_nat i).
Proof.
  intros H. unfold np_index.
  by rewrite (proj2 (Z.leb_le 0 i)), (proj2 (Z.ltb_lt i _)) by lia.
Qed.

Lemma np_get_in_range {T : Type} (a : list T) (i : Z) (v : T) :
  0 ≤ i → a !! Z.to_nat i = Some v → np_get a i = inr v.
Proof.
  intros Hi Hv. unfold np_get. apply lookup_lt_Some in Hv as Hlt.
  rewrite np_index_in_range by lia. simpl. by rewrite Hv.
Qed.

Lemma np_set_in_range {T : Type} (a : list T) (i : Z) (v : T) :
  0 ≤ i < Z.of_nat (length a) → np_set a i v = inr (<[Z.to_nat i := v]> a).
Proof. intros H. unfold np_set. by rewrite np_index_in_range. Qed.

(** The inner loop writes [N] copies of [i] from the cursor on. *)
Lemma get_sn_inner (i : Z) (pre post : list Z) (N : Z) :
  0 ≤ N → N ≤ Z.of_nat (length post) →
  for_each (λ (st : list Z * Z) (_ : Z),
              s_n' ← np_set st.1 st.2 i; mret (s_n', st.2 + 1))
    (pre ++ post, Z.of_nat (length pre)) (py_range N)
  = inr (pre ++ replicate (Z.to_nat N) i ++ drop (Z.to_nat N) post,
         Z.of_nat (length pre) + N).
Proof.
  intros HN Hlen.
  destruct (for_each_range
    (λ (st : list Z * Z) (_ : Z), s_n' ← np_set st.1 st.2 i; mret (s_n', st.2 + 1))
    (λ k st, st = (pre ++ replicate (Z.to_nat k) i ++ drop (Z.to_nat k) post,
                   Z.of_nat (length pre) + k))
    (pre ++ post, Z.of_nat (length pre)) N) as (st & Hst & HI).
  - simpl. rewrite ?drop_0. f_equal; lia.
  - intros k st Hk ->. simpl.
    rewrite np_set_in_range.
    2:{ rewrite !length_app, length_replicate, length_drop. lia. }
    simpl. eexists; split; [done|]. f_equal; [|lia].
    replace (Z.to_nat (Z.of_nat (length pre) + k)) with (length pre + Z.to_nat k)%nat by lia.
    rewrite insert_app_r.
    replace (Z.to_nat k) with (length (replicate (Z.to_nat k) i) + 0)%nat at 1
      by (rewrite length_replicate; lia).
    rewrite insert_app_r.
    destruct (drop (Z.to_nat k) post) as [|y rest] eqn:Hd.
    { apply (f_equal length) in Hd. rewrite length_drop in Hd. simpl in Hd. lia. }
    simpl. replace (Z.to_nat (k + 1)) with (S (Z.to_nat k)) by lia.
    rewrite replicate_S_end, <- app_assoc. simpl. do 3 f_equal.
    rewrite <- (Nat.add_1_r (Z.to_nat k)), <- drop_drop, Hd. done.
  - rewrite Hst, HI. by rewrite Z.max_l by lia.
Qed.

Lemma blocks_snoc (i0 : Z) (l : list Z) (N : Z) :
  blocks i0 (l ++ [N]) = blocks i0 l ++ replicate (Z.to_nat N) (i0 + Z.of_nat (length l)).
Proof.
  revert i0. induction l as [|x l IH]; intros i0; simpl.
  - by rewrite app_nil_r, Z.add_0_r.
  - rewrite IH, <- app_assoc. do 3 f_equal. lia.
Qed.

Lemma prefix_sum_le (N_k : list Z) (i : nat) :
  Forall (Z.le 0) N_k → 0 ≤ prefix_sum N_k i ≤ py_sum N_k.
Proof.
  intros H. unfold prefix_sum.
  rewrite <- (take_drop i N_k) at 3. rewrite py_sum_app.
  assert (0 ≤ py_sum (take i N_k)) by (by apply py_sum_nonneg, Forall_take).
  assert (0 ≤ py_sum (drop i N_k)) by (by apply py_sum_nonneg, Forall_drop). lia.
Qed.

(** The result of [get_sn] in closed form. *)
Lemma get_sn_blocks (N_k : list Z) :
  Forall (Z.le 0) N_k → get_sn N_k = inr (blocks 0 N_k).
Proof.
  intros Hpos. unfold get_sn, np_zeros_int.
  pose proof (py_sum_nonneg _ Hpos) as Htot.
  rewrite (proj2 (Z.ltb_ge _ _)) by done. simpl.
  match goal with |- context [for_each ?b ?s ?l] =>
    destruct (for_each_range b
      (λ i st, st = (blocks 0 (take (Z.to_nat i) N_k)
                       ++ replicate (Z.to_nat (py_sum N_k - prefix_sum N_k (Z.to_nat i))) 0,
                     prefix_sum N_k (Z.to_nat i)))
      s (Z.of_nat (length N_k))) as (st & Hst & HI)
  end.
  - simpl. unfold prefix_sum. simpl. change (py_sum []) with 0.
    by rewrite Z.sub_0_r.
  - intros i st Hi ->.
    destruct (lookup_lt_is_Some_2 N_k (Z.to_nat i)) as [N HN]; [lia|].
    rewrite (np_get_in_range _ _ _ (proj1 Hi) HN). simpl.
    assert (HN0 : 0 ≤ N) by (eapply Forall_lookup_1 in HN; [exact HN|exact Hpos]).
    pose proof (prefix_sum_S _ _ _ HN) as HS.
    pose proof (prefix_sum_le N_k (S (Z.to_nat i)) Hpos) as Hle.
    pose proof (prefix_sum_le N_k (Z.to_nat i) Hpos) as Hle'.
    assert (Hlen : Z.of_nat (length (blocks 0 (take (Z.to_nat i) N_k)))
                   = prefix_sum N_k (Z.to_nat i)).
    { apply length_blocks, Forall_take, Hpos. }
    pose proof (get_sn_inner i (blocks 0 (take (Z.to_nat i) N_k))
      (replicate (Z.to_nat (py_sum N_k - prefix_sum N_k (Z.to_nat i))) 0) N HN0) as Hin.
    rewrite Hlen in Hin. rewrite Hin by (rewrite length_replicate; lia).
    eexists; split; [done|]. f_equal.
    + replace (Z.to_nat (i + 1)) with (S (Z.to_nat i)) by lia.
      rewrite (take_S_r _ _ _ HN), blocks_snoc, <- app_assoc. do 2 f_equal.
      * f_equal. rewrite length_take, Nat.min_l; [lia|].
        apply lookup_lt_Some in HN. lia.
      * rewrite drop_replicate. f_equal. lia.
    + replace (Z.to_nat (i + 1)) with (S (Z.to_nat i)) by lia. lia.
  - rewrite Hst, HI. simpl. f_equal.
    rewrite Z.max_l, Nat2Z.id by lia.
    rewrite take_ge by lia. unfold prefix_sum. rewrite take_ge by lia.
    rewrite Z.sub_diag. simpl. by rewrite app_nil_r.
Qed.

Lemma prefix_sum_cons_S (N : Z) (l : list Z) (j : nat) :
  prefix_sum (N :: l) (S j) = N + prefix_sum l j.
Proof. unfold prefix_sum. simpl. apply py_sum_cons. Qed.

(** Inside the range of state [j] the closed form holds [j]. *)
Lemma blocks_lookup (i0 : Z) (N_k : list Z) (j n : nat) :
  Forall (Z.le 0) N_k → (j < length N_k)%nat →
  prefix_sum N_k j ≤ Z.of_nat n < prefix_sum N_k (S j) →
  blocks i0 N_k !! n = Some (i0 + Z.of_nat j).
Proof.
  intros H. revert i0 j n.
  induction H as [|N l HN Hl IH]; intros i0 j n Hj Hn; simpl in *; [lia|].
  destruct j as [|j].
  - rewrite prefix_sum_cons_S in Hn. unfold prefix_sum in Hn. simpl in Hn.
    rewrite take_0 in Hn. change (py_sum []) with 0 in Hn.
    rewrite lookup_app_l by (rewrite length_replicate; lia).
    rewrite Z.add_0_r. apply lookup_replicate_2. lia.
  - rewrite !prefix_sum_cons_S in Hn.
    pose proof (prefix_sum_le l j Hl).
    rewrite lookup_app_r by (rewrite length_replicate; lia).
    rewrite length_replicate, (IH (i0 + 1) j); [f_equal; lia|lia|lia].
Qed.

(** Every sample index lies in the range of some state. *)
Lemma prefix_sum_cover (N_k : list Z) (n : nat) :
  Forall (Z.le 0) N_k → Z.of_nat n < py_sum N_k →
  ∃ j, (j < length N_k)%nat ∧ prefix_sum N_k j ≤ Z.of_nat n < prefix_sum N_k (S j).
Proof.
  intros H. revert n. induction H as [|N l HN Hl IH]; intros n Hn.
  - change (py_sum []) with 0 in Hn. lia.
  - rewrite py_sum_cons in Hn.
    destruct (Z.lt_ge_cases (Z.of_nat n) N) as [Hlt|Hge].
    + exists 0%nat. rewrite prefix_sum_cons_S. unfold prefix_sum.
      rewrite !take_0. change (py_sum []) with 0. simpl. lia.
    + destruct (IH (n - Z.to_nat N)%nat) as (j & Hj & Hr); [lia|].
      exists (S j). rewrite !prefix_sum_cons_S. simpl. lia.
Qed.

(** The values that fit 64 bits, two's complement. *)
Lemma to_int64_id (z : Z) : in_int64 z → to_int64 z = z.
Proof.
  unfold in_int64, to_int64. intros H. rewrite Z.mod_small; lia.
Qed.

Lemma to_int64_fmap_id (l : list Z) : Forall in_int64 l → to_int64 <$> l = l.
Proof.
  induction 1 as [|x l Hx _ IH]; [done|].
  rewrite fmap_cons, IH. by rewrite to_int64_id.
Qed.

(** C6: on a file that does not hold the three nodes yet, [save] succeeds and
    [load_from_hdf] of the file it wrote returns the three arrays unchanged:
    the float64 items as they are, the integers (which fit 64 bits) as they
    are. *)
Theorem save_load_round_trip (fs : gmap string (gmap string ndarray))
    (name : string) (u_kn : array2d) (N_k s_n : list Z) :
  Z.of_nat (length N_k) = (shape u_kn).1 →
  Z.of_nat (length s_n) = (shape u_kn).2 →
  Forall in_int64 N_k → Forall in_int64 s_n →
  (∀ f, fs !! hdf_filename name = Some f →
        f !! "u_kn" = None ∧ f !! "N_k" = None ∧ f !! "s_n" = None) →
  ∃ fs', save fs name u_kn N_k (Some s_n) = inr fs' ∧
         load_from_hdf fs' (hdf_filename name)
         = inr (Float64_2d u_kn, Int64_1d N_k, Int64_1d s_n).
Proof.
  destruct u_kn as [[n_states n_samples] u]. simpl.
  intros HN Hs HN64 Hs64 Hfresh.
  unfold save, ensure_type_float_2d, ensure_type_int64_1d. simpl.
  destruct (decide ((n_states, n_samples) = (n_states, n_samples))); [|done].
  simpl. rewrite (proj2 (Z.eqb_eq _ _) HN). simpl.
  rewrite (proj2 (Z.eqb_eq _ _) Hs). simpl.
  rewrite !to_int64_fmap_id by done.
  set (f0 := tables_open_append fs (hdf_filename name)).
  assert (Hf0 : f0 !! "u_kn" = None ∧ f0 !! "N_k" = None ∧ f0 !! "s_n" = None).
  { unfold f0, tables_open_append.
    destruct (fs !! hdf_filename name) as [f|] eqn:Hf; simpl; [by apply Hfresh|].
    by rewrite !lookup_empty. }
  destruct Hf0 as (Hu & Hn & Hsn).
  unfold createCArray. simpl. rewrite Hu. simpl.
  rewrite lookup_insert_ne, Hn by done. simpl.
  rewrite !lookup_insert_ne, Hsn by done. simpl.
  eexists; split; [done|].
  unfold load_from_hdf, tables_open_read. rewrite lookup_insert_eq. simpl.
  unfold read_node.
  repeat (rewrite lookup_insert_eq || rewrite lookup_insert_ne by done).
  done.
Qed.

Lemma save_load_round_trip_witness :
  ∃ fs', save ∅ "gas" (MkArray2d (2, 3) [1; 2; 3; 4; 5; 6]%float) [1; 2] (Some [0; 1; 1])
         = inr fs' ∧
         load_from_hdf fs' (hdf_filename "gas")
         = inr (Float64_2d (MkArray2d (2, 3) [1; 2; 3; 4; 5; 6]%float),
                Int64_1d [1; 2], Int64_1d [0; 1; 1]).
Proof.
  apply (save_load_round_trip ∅ "gas" (MkArray2d (2, 3) [1; 2; 3; 4; 5; 6]%float)
           [1; 2] [0; 1; 1]).
  - reflexivity.
  - reflexivity.
  - repeat constructor; unfold in_int64; lia.
  - repeat constructor; unfold in_int64; lia.
  - intros f Hf. by rewrite lookup_empty in Hf.
Defined.

(** ** [argsort] returns a permutation of the indices (any arithmetic) *)

Section ArgsortPerm.
Context (A : Arith).

Lemma insert_index_perm (a : list (num A)) (i : nat) (l : list nat) :
  insert_index A a i l ≡ₚ i :: l.
Proof.
  induction l as [|j l IH]; simpl; [done|].
  destruct (a !! j) as [xj|]; [|done].
  destruct (a !! i) as [xi|]; [|done].
  destruct (sort_lt A xj xi); [|done].
  rewrite IH. apply Permutation_swap.
Qed.

Lemma argsort_perm (a : list (num A)) : argsort A a ≡ₚ seq 0 (length a).
Proof.
  unfold argsort. induction (seq 0 (length a)) as [|i l IH]; simpl; [done|].
  by rewrite insert_index_perm, IH.
Qed.

Lemma length_argsort (a : list (num A)) : length (argsort A a) = length a.
Proof. by rewrite argsort_perm, length_seq. Qed.

Lemma NoDup_argsort (a : list (num A)) : NoDup (argsort A a).
Proof. rewrite argsort_perm. apply NoDup_seq. Qed.

Lemma argsort_lt (a : list (num A)) (r k : nat) :
  argsort A a !! r = Some k → (k < length a)%nat.
Proof.
  intros H. apply list_elem_of_lookup_2 in H.
  rewrite argsort_perm in H. apply elem_of_seq in H. lia.
Qed.

Lemma argsort_lookup (a : list (num A)) (r : nat) :
  (r < length a)%nat → ∃ k, argsort A a !! r = Some k ∧ (k < length a)%nat.
Proof.
  intros H. destruct (lookup_lt_is_Some_2 (argsort A a) r) as [k Hk].
  { by rewrite length_argsort. }
  exists k. split; [done|]. by eapply argsort_lt.
Qed.

Lemma argsort_inj (a : list (num A)) (r1 r2 k : nat) :
  argsort A a !! r1 = Some k → argsort A a !! r2 = Some k → r1 = r2.
Proof. intros H1 H2. eapply NoDup_lookup; [apply NoDup_argsort|done..]. Qed.
End ArgsortPerm.

(** ** The same code without rounding *)

Lemma Rltb_true (x y : R) : Rltb x y = true ↔ (x < y)%R.
Proof. unfold Rltb. destruct (Rlt_dec x y); split; (done || lra). Qed.

Lemma Rltb_false (x y : R) : Rltb x y = false ↔ (y <= x)%R.
Proof. unfold Rltb. destruct (Rlt_dec x y); split; (done || lra). Qed.

(** Over the reals [int(float(N) / float(nbins) * float(k))] is
    [floor(N * k / nbins)]. *)
Lemma span_index_exactR (N nbins k : Z) :
  0 ≤ N → 1 ≤ nbins → 0 ≤ k →
  span_index exactR N nbins k = inr (N * k / nbins).
Proof.
  intros HN HB Hk. unfold span_index, py_div. simpl.
  unfold Reqb. destruct (Req_dec_T (IZR nbins) 0) as [H0|_].
  { apply eq_IZR in H0. lia. }
  simpl. f_equal. unfold Rtrunc.
  assert (HBr : (0 < IZR nbins)%R) by (apply IZR_lt; lia).
  assert (Hpos : (0 <= IZR N / IZR nbins * IZR k)%R).
  { apply Rmult_le_pos; [|apply IZR_le; lia].
    apply Rmult_le_pos; [apply IZR_le; lia|].
    left. by apply Rinv_0_lt_compat. }
  destruct (Rle_dec 0 (IZR N / IZR nbins * IZR k)); [|done].
  apply Zfloor_eq.
  pose proof (Z.div_mod (N * k) nbins ltac:(lia)) as Hdm.
  pose proof (Z.mod_pos_bound (N * k) nbins ltac:(lia)) as Hmod.
  set (q := N * k / nbins) in *. set (m := (N * k) mod nbins) in *.
  assert (Heq : (IZR N / IZR nbins * IZR k = IZR q + IZR m / IZR nbins)%R).
  { replace (IZR N / IZR nbins * IZR k)%R with (IZR (N * k) / IZR nbins)%R
      by (rewrite mult_IZR; field; lra).
    rewrite Hdm, plus_IZR, mult_IZR. field. lra. }
  rewrite Heq.
  assert (0 <= IZR m / IZR nbins < 1)%R.
  { split.
    - apply Rmult_le_pos; [apply IZR_le; lia|]. left. by apply Rinv_0_lt_compat.
    - apply (Rmult_lt_reg_r (IZR nbins)); [done|].
      replace (IZR m / IZR nbins * IZR nbins)%R with (IZR m) by (field; lra).
      rewrite Rmult_1_l. apply IZR_lt. lia. }
  lra.
Qed.

(** ** [min] and [max] over the reals *)

Lemma np_max_exactR (x : R) (a : list R) :
  ∃ M, np_max exactR (x :: a) = inr M ∧ M ∈ x :: a ∧ ∀ v, v ∈ x :: a → (v <= M)%R.
Proof.
  unfold np_max. simpl. eexists; split; [done|].
  revert x. induction a as [|y a IH]; intros x; simpl.
  - split; [apply list_elem_of_here|].
    intros v Hv. apply list_elem_of_singleton in Hv. lra.
  - destruct (Rltb x y) eqn:Hlt.
    + apply Rltb_true in Hlt. destruct (IH y) as [Hin Hmax].
      split; [by apply list_elem_of_further|].
      intros v Hv. apply elem_of_cons in Hv as [->|Hv]; [|by apply Hmax].
      pose proof (Hmax y (list_elem_of_here _ _)). lra.
    + apply Rltb_false in Hlt. destruct (IH x) as [Hin Hmax]. split.
      * apply elem_of_cons in Hin as [->|Hin]; [apply list_elem_of_here|].
        by do 2 apply list_elem_of_further.
      * intros v Hv. pose proof (Hmax x (list_elem_of_here _ _)).
        apply elem_of_cons in Hv as [->|Hv]; [done|].
        apply elem_of_cons in Hv as [->|Hv]; [lra|].
        by apply Hmax, list_elem_of_further.
Qed.

Lemma np_min_exactR (x : R) (a : list R) :
  ∃ m, np_min exactR (x :: a) = inr m ∧ m ∈ x :: a ∧ ∀ v, v ∈ x :: a → (m <= v)%R.
Proof.
  unfold np_min. simpl. eexists; split; [done|].
  revert x. induction a as [|y a IH]; intros x; simpl.
  - split; [apply list_elem_of_here|].
    intros v Hv. apply list_elem_of_singleton in Hv. lra.
  - destruct (Rltb y x) eqn:Hlt.
    + apply Rltb_true in Hlt. destruct (IH y) as [Hin Hmin].
      split; [by apply list_elem_of_further|].
      intros v Hv. apply elem_of_cons in Hv as [->|Hv]; [|by apply Hmin].
      pose proof (Hmin y (list_elem_of_here _ _)). lra.
    + apply Rltb_false in Hlt. destruct (IH x) as [Hin Hmin]. split.
      * apply elem_of_cons in Hin as [->|Hin]; [apply list_elem_of_here|].
        by do 2 apply list_elem_of_further.
      * intros v Hv. pose proof (Hmin x (list_elem_of_here _ _)).
        apply elem_of_cons in Hv as [->|Hv]; [done|].
        apply elem_of_cons in Hv as [->|Hv]; [lra|].
        by apply Hmin, list_elem_of_further.
Qed.

(** ** Index arrays and slices *)

Lemma np_set_many_spec {T : Type} (a : list T) (idx : list nat) (v : T) :
  Forall (λ k, (k < length a)%nat) idx →
  ∃ a', np_set_many a idx v = inr a' ∧ length a' = length a ∧
        (∀ k, k ∈ idx → a' !! k = Some v) ∧
        (∀ k, k ∉ idx → a' !! k = a !! k).
Proof.
  unfold np_set_many. revert a. induction idx as [|j idx IH]; intros a Hidx; simpl.
  - exists a. split; [done|]. split; [done|]. split; [|done].
    intros k Hk. by apply elem_of_nil in Hk.
  - apply Forall_cons in Hidx as [Hj Hidx].
    rewrite np_set_in_range by lia. simpl. rewrite Nat2Z.id.
    destruct (IH (<[j:=v]> a)) as (a' & Ha' & Hlen & Hin & Hout).
    { by rewrite length_insert. }
    exists a'. split; [done|]. rewrite length_insert in Hlen. split; [done|]. split.
    + intros k Hk. destruct (decide (k ∈ idx)) as [Hk'|Hk']; [by apply Hin|].
      apply elem_of_cons in Hk as [->|Hk]; [|done].
      rewrite (Hout j Hk'). by apply list_lookup_insert_eq.
    + intros k Hk. apply not_elem_of_cons in Hk as [Hne Hk].
      rewrite (Hout k Hk). by apply list_lookup_insert_ne.
Qed.

Lemma py_slice_in_range {T : Type} (a : list T) (i j : Z) :
  0 ≤ i → i ≤ j → j ≤ Z.of_nat (length a) →
  py_slice a i j = take (Z.to_nat (j - i)) (drop (Z.to_nat i) a).
Proof.
  intros Hi Hij Hj. unfold py_slice, slice_bound.
  rewrite !(proj2 (Z.ltb_ge _ _)) by lia.
  rewrite !Z.min_l by lia. f_equal. lia.
Qed.

Lemma elem_of_py_slice {T : Type} (a : list T) (i j : Z) (k : T) :
  0 ≤ i → i ≤ j → j ≤ Z.of_nat (length a) →
  k ∈ py_slice a i j ↔ ∃ r : nat, i ≤ Z.of_nat r < j ∧ a !! r = Some k.
Proof.
  intros Hi Hij Hj. rewrite py_slice_in_range by done.
  rewrite elem_of_take. split.
  - intros (r & Hr & Hlt). rewrite lookup_drop in Hr.
    exists (Z.to_nat i + r)%nat. split; [lia|done].
  - intros (r & Hr & Hk). exists (r - Z.to_nat i)%nat. rewrite lookup_drop.
    replace (Z.to_nat i + (r - Z.to_nat i))%nat with r by lia. split; [done|lia].
Qed.

(** ** The span boundaries [floor(N * i / B)] *)

Lemma span_start_end (N B : Z) : 1 ≤ B → span_start N B B = N.
Proof. intros H. unfold span_start. apply Z.div_mul. lia. Qed.

Lemma span_start_mono (N B i j : Z) :
  0 ≤ N → 1 ≤ B → i ≤ j → span_start N B i ≤ span_start N B j.
Proof.
  intros HN HB Hij. unfold span_start. apply Z.div_le_mono; [lia|nia].
Qed.

Lemma span_start_nonneg (N B i : Z) : 0 ≤ N → 1 ≤ B → 0 ≤ i → 0 ≤ span_start N B i.
Proof. intros. unfold span_start. apply Z.div_pos; nia. Qed.

Lemma span_start_lt (N B i : Z) :
  1 ≤ N → 1 ≤ B → i < B → span_start N B i < N.
Proof.
  intros HN HB Hi. unfold span_start. apply Z.div_lt_upper_bound; nia.
Qed.

(** ** The first loop of [construct_nonuniform_bins], over the reals *)

Section AssignLoop.
Context (x_n : list R) (nbins : Z).
Hypothesis Hne : x_n ≠ [].
Hypothesis HB : 1 ≤ nbins.

Let N : Z := Z.of_nat (length x_n).

Lemma N_pos : 1 ≤ N.
Proof. unfold N. destruct x_n; [done|]. simpl. lia. Qed.

Lemma assign_span_step (b : Z) (st : list R * list R) :
  0 ≤ b < nbins → assign_inv x_n N nbins b st →
  ∃ st', assign_span exactR x_n (argsort exactR x_n) nbins st b = inr st' ∧
         assign_inv x_n N nbins (b + 1) st'.
Proof.
  intros Hb (Hlen1 & Hleft & Hlen2 & Hasg).
  pose proof N_pos as HN.
  pose proof (span_start_nonneg N nbins b ltac:(lia) HB ltac:(lia)) as Hf0.
  pose proof (span_start_lt N nbins b HN HB ltac:(lia)) as Hf1.
  pose proof (span_start_mono N nbins b (b + 1) ltac:(lia) HB ltac:(lia)) as Hf2.
  assert (Hf3 : span_start N nbins (b + 1) ≤ N).
  { pose proof (span_start_mono N nbins (b + 1) nbins ltac:(lia) HB ltac:(lia)) as H.
    by rewrite (span_start_end N nbins HB) in H. }
  destruct (argsort_lookup exactR x_n (Z.to_nat (span_start N nbins b)))
    as (k0 & Hk0 & Hk0lt); [simpl; lia|].
  destruct (lookup_lt_is_Some_2 x_n k0 Hk0lt) as [v Hv].
  unfold assign_span. fold N.
  rewrite !span_index_exactR by lia. simpl.
  change (Z.of_nat (length x_n) * b / nbins) with (span_start N nbins b).
  change (Z.of_nat (length x_n) * (b + 1) / nbins) with (span_start N nbins (b + 1)).
  rewrite (np_get_in_range _ _ _ Hf0 Hk0). simpl.
  rewrite (np_get_in_range x_n (Z.of_nat k0) v) by (rewrite ?Nat2Z.id; done || lia).
  simpl. rewrite np_set_in_range by lia. simpl.
  destruct (np_set_many_spec st.2
    (py_slice (argsort exactR x_n) (span_start N nbins b) (span_start N nbins (b + 1)))
    (IZR b)) as (asg' & Hset & Hlen' & Hin & Hout).
  { apply Forall_forall. intros k Hk.
    apply elem_of_py_slice in Hk as (r & _ & Hr);
      [|lia|lia|rewrite length_argsort; simpl; lia].
    rewrite Hlen2. exact (argsort_lt exactR x_n r k Hr). }
  rewrite Hset. simpl. eexists; split; [done|]. unfold assign_inv. simpl.
  split; [by rewrite length_insert|]. split; [|split; [by rewrite Hlen'|]].
  - intros i Hi. destruct (decide (i = b)) as [->|Hib].
    + rewrite list_lookup_insert_eq by lia. f_equal.
      unfold sample_at_rank. rewrite Hk0. simpl. by rewrite Hv.
    + rewrite list_lookup_insert_ne by lia. apply Hleft. lia.
  - intros i r k Hi Hr Hk.
    assert (Hslice : k ∈ py_slice (argsort exactR x_n) (span_start N nbins b)
                          (span_start N nbins (b + 1))
                     ↔ span_start N nbins b ≤ Z.of_nat r < span_start N nbins (b + 1)).
    { rewrite elem_of_py_slice by (lia || (rewrite length_argsort; simpl; lia)).
      split.
      - intros (r' & Hr' & Hk'). by rewrite (argsort_inj exactR x_n r r' k Hk Hk').
      - intros Hr'. by exists r. }
    destruct (decide (i = b)) as [->|Hib].
    + apply Hin. by apply Hslice.
    + rewrite Hout.
      * apply (Hasg i r k); [lia|done..].
      * rewrite Hslice.
        pose proof (span_start_mono N nbins (i + 1) b ltac:(lia) HB ltac:(lia)). lia.
Qed.

Lemma assign_loop (left0 : list R) :
  length left0 = Z.to_nat (nbins + 1) →
  ∃ st, for_each (assign_span exactR x_n (argsort exactR x_n) nbins)
          (left0, replicate (Z.to_nat N) 0%R) (py_range nbins) = inr st ∧
        assign_inv x_n N nbins nbins st.
Proof.
  intros Hlen.
  destruct (for_each_range (assign_span exactR x_n (argsort exactR x_n) nbins)
              (assign_inv x_n N nbins) (left0, replicate (Z.to_nat N) 0%R) nbins) as (st & Hst & HI).
  - split; [done|]. split; [intros; lia|].
    split; [simpl; rewrite length_replicate; unfold N; lia|intros; lia].
  - intros i s Hi HI. by apply assign_span_step.
  - exists st. split; [done|]. by rewrite Z.max_l in HI by lia.
Qed.
End AssignLoop.

(** ** The second loop: centres and widths *)

Lemma center_width_loop (left_i : list R) (nbins : Z) (c0 w0 : list R) :
  0 ≤ nbins → length left_i = Z.to_nat (nbins + 1) →
  length c0 = Z.to_nat nbins → length w0 = Z.to_nat nbins →
  ∃ st, for_each (center_width exactR left_i) (c0, w0) (py_range nbins) = inr st ∧
        center_inv left_i nbins nbins st.
Proof.
  intros HB Hlen Hc0 Hw0.
  destruct (for_each_range (center_width exactR left_i) (center_inv left_i nbins)
              (c0, w0) nbins) as (st & Hst & HI).
  - split; [done|]. split; [done|]. intros; lia.
  - intros b [c w] Hb (Hc & Hw & Hval). simpl in *.
    destruct (lookup_lt_is_Some_2 left_i (Z.to_nat b)) as [l Hl]; [lia|].
    destruct (lookup_lt_is_Some_2 left_i (Z.to_nat (b + 1))) as [r Hr]; [lia|].
    unfold center_width. simpl.
    rewrite !(np_get_in_range left_i b l) by (lia || done).
    rewrite !(np_get_in_range left_i (b + 1) r) by (lia || done). simpl.
    rewrite np_set_in_range by lia. simpl.
    rewrite np_set_in_range by lia. simpl.
    eexists; split; [done|]. unfold center_inv. simpl.
    split; [by rewrite length_insert|]. split; [by rewrite length_insert|].
    intros i l' r' Hi Hl' Hr'. destruct (decide (i = b)) as [->|Hib].
    + rewrite Hl in Hl'. rewrite Hr in Hr'. injection Hl' as <-. injection Hr' as <-.
      by rewrite !list_lookup_insert_eq by lia.
    + rewrite !list_lookup_insert_ne by lia. apply Hval; [lia|done..].
  - exists st. split; [done|]. by rewrite Z.max_l in HI by lia.
Qed.

(** ** [construct_nonuniform_bins] over the reals *)

(** For a non-empty array and at least one bin the function returns; the
    left boundary of bin [i] is the sample of rank [floor(N * i / B)], the
    last boundary is the padded maximum, and the sample of rank [r] is
    assigned the bin whose span holds [r]. *)
Lemma construct_nonuniform_bins_exactR (x_n : list R) (nbins : Z) :
  x_n ≠ [] → 1 ≤ nbins →
  let N := Z.of_nat (length x_n) in
  ∃ res m M,
    construct_nonuniform_bins exactR x_n nbins = inr res ∧
    np_min exactR x_n = inr m ∧ np_max exactR x_n = inr M ∧
    length (bin_left_boundary_i res) = Z.to_nat (nbins + 1) ∧
    (∀ i, 0 ≤ i < nbins →
       bin_left_boundary_i res !! Z.to_nat i
       = Some (sample_at_rank x_n (Z.to_nat (span_start N nbins i)))) ∧
    bin_left_boundary_i res !! Z.to_nat nbins
      = Some (M + (M - m) * (1 / 100000))%R ∧
    length (bin_n res) = length x_n ∧
    (∀ i (r k : nat), 0 ≤ i < nbins →
       span_start N nbins i ≤ Z.of_nat r < span_start N nbins (i + 1) →
       argsort exactR x_n !! r = Some k → bin_n res !! k = Some (IZR i)) ∧
    center_inv (bin_left_boundary_i res) nbins nbins
      (bin_center_i res, bin_width_i res).
Proof.
  intros Hne HB N. unfold construct_nonuniform_bins, np_zeros.
  rewrite !(proj2 (Z.ltb_ge _ _)) by lia. simpl.
  assert (∃ m, np_min exactR x_n = inr m) as [m Hm].
  { destruct x_n as [|x0 x']; [done|].
    destruct (np_min_exactR x0 x') as (m & Hm & _). eauto. }
  assert (∃ M, np_max exactR x_n = inr M) as [M HM].
  { destruct x_n as [|x0 x']; [done|].
    destruct (np_max_exactR x0 x') as (M & HM & _). eauto. }
  rewrite Hm, HM. simpl.
  destruct (assign_loop x_n nbins Hne HB
              (replicate (Z.to_nat (nbins + 1)) 0%R)) as ([left_i asg] & Hloop & HI).
  { by rewrite length_replicate. }
  change (num exactR) with R in *.
  change (zero exactR) with 0%R. rewrite Hloop. simpl.
  destruct HI as (Hlen1 & Hleft & Hlen2 & Hasg). simpl in *.
  rewrite np_set_in_range by lia. simpl.
  destruct (center_width_loop (<[Z.to_nat nbins := (M + (M - m) * (1 / 100000))%R]> left_i)
              nbins (replicate (Z.to_nat nbins) 0%R) (replicate (Z.to_nat nbins) 0%R))
    as ([c w] & Hcw & HIcw).
  { lia. } { by rewrite length_insert. }
  { by rewrite length_replicate. } { by rewrite length_replicate. }
  change (num exactR) with R in *. rewrite Hcw. simpl.
  eexists _, m, M.
  split; [done|]. split; [done|]. split; [done|]. simpl.
  split; [by rewrite length_insert|]. split.
  { intros i Hi. rewrite list_lookup_insert_ne by lia. by apply Hleft. }
  split; [by rewrite list_lookup_insert_eq by lia|].
  split; [done|]. split; [done|]. done.
Qed.

(** ** The bin boundaries *)


(** ** Machine evaluations of [construct_nonuniform_bins] *)

(** C1 at fifteen samples in eleven bins.  In binary64,
    [15.0 / 11.0 * 11.0] is [14.999999999999998], so the last span ends at
    rank 14 and the largest sample (rank 14, index 14) is never assigned: its
    entry of [bin_n] is still the [0.0] of [np.zeros], not the last bin 10. *)
Theorem largest_sample_left_unassigned :
  (15 / 11 * 11)%float = 0x1.dffffffffffffp+3%float ∧
  span_index binary64 15 11 11 = inr 14 ∧
  bin_n <$> construct_nonuniform_bins binary64
              (fl [0; 1; 2; 3; 4; 5; 6; 7; 8; 9; 10; 11; 12; 13; 14]%float) 11
  = inr (fl [0; 1; 2; 2; 3; 4; 5; 5; 6; 7; 8; 8; 9; 10; 0]%float).
Proof. split; [|split]; vm_compute; reflexivity. Qed.

(** C2 at thirty samples in twenty-two bins.  [floor(30 * 11 / 22)] is 15,
    but in binary64 [30.0 / 22.0 * 11.0] is [14.999999999999998], so the left
    boundary of bin 11 is the sample of rank 14. *)
Theorem left_boundary_off_by_one_rank :
  span_start 30 22 11 = 15 ∧
  (30 / 22 * 11)%float = 0x1.dffffffffffffp+3%float ∧
  span_index binary64 30 22 11 = inr 14 ∧
  (λ res, bin_left_boundary_i res !! 11%nat) <$>
    construct_nonuniform_bins binary64
      (fl [0; 1; 2; 3; 4; 5; 6; 7; 8; 9; 10; 11; 12; 13; 14; 15; 16; 17; 18; 19;
           20; 21; 22; 23; 24; 25; 26; 27; 28; 29]%float) 22
  = inr (Some 14%float).
Proof. split; [|split; [|split]]; vm_compute; reflexivity. Qed.

(** C4 at a single sample: the padding [(x_max - x_min) * 1.0e-5] is zero, the
    last boundary is the sample itself, and the sample is not below it. *)
Theorem maximum_on_last_boundary :
  bins_fields <$> construct_nonuniform_bins binary64 (fl [1]%float) 1
  = inr (fl [1; 1]%float, fl [1]%float, fl [0]%float, fl [0]%float) ∧
  np_max binary64 (fl [1]%float) = inr 1%float ∧
  ltb binary64 1%float 1%float = false.
Proof. split; [|split]; vm_compute; reflexivity. Qed.

(** ** Arguments the function is not meant for *)

(** C9, as the claim states it, fails: with no bins and a non-empty array the
    function returns a result. *)
Lemma zero_bins_returns_a_result :
  bins_fields <$> construct_nonuniform_bins binary64 (fl [1]%float) 0
  = inr (fl [1]%float, fl [], fl [], fl [0]%float).
Proof. vm_compute. reflexivity. Qed.

(** C9, as the code has it (for every arithmetic): a negative bin count, and
    an empty array with a bin count that is not negative, raise numpy's
    [ValueError]; no bins and a non-empty array return the padded maximum as
    the only boundary, no centre, no width, and every assignment [0]. *)
Theorem construct_nonuniform_bins_bad_arguments (A : Arith)
    (x_n : list (num A)) (nbins : Z) :
  (nbins < 0 → construct_nonuniform_bins A x_n nbins = inl ValueError) ∧
  (0 ≤ nbins → x_n = [] → construct_nonuniform_bins A x_n nbins = inl ValueError) ∧
  (nbins = 0 → x_n ≠ [] →
   ∃ m M, np_min A x_n = inr m ∧ np_max A x_n = inr M ∧
     construct_nonuniform_bins A x_n nbins
     = inr (MkBins [add A M (mul A (sub A M m) (eps A))] [] []
              (replicate (length x_n) (zero A)))).
Proof.
  split; [|split].
  - intros Hneg. unfold construct_nonuniform_bins, np_zeros.
    destruct (Z.ltb_spec (nbins + 1) 0) as [H1|H1]; [done|]. simpl.
    by rewrite (proj2 (Z.ltb_lt nbins 0)) by lia.
  - intros Hpos ->. unfold construct_nonuniform_bins, np_zeros.
    rewrite (proj2 (Z.ltb_ge (nbins + 1) 0)) by lia. simpl.
    by rewrite (proj2 (Z.ltb_ge nbins 0)) by lia.
  - intros -> Hne. destruct x_n as [|x0 x'] eqn:Hx; [done|].
    eexists _, _. split; [done|]. split; [done|].
    unfold construct_nonuniform_bins. simpl.
    by rewrite Nat2Z.id.
Qed.

(** ** The bin probabilities *)


(** ** The observed histogram *)

Lemma occupancy_S (row : list Z) (t : nat) (b i : Z) :
  row !! t = Some b →
  occupancy row (S t) i = (occupancy row t i + (if decide (b = i) then 1 else 0))%nat.
Proof.
  intros Hb. unfold occupancy. rewrite (take_S_r _ _ _ Hb), count_occ_app. simpl.
  destruct (Z.eq_dec b i), (decide (b = i)); done.
Qed.

(** ** The PMF from the observed counts *)

Lemma elem_of_where_from (k : nat) (c : list bool) (j : nat) :
  j ∈ where_from k c ↔ (k ≤ j)%nat ∧ c !! (j - k)%nat = Some true.
Proof.
  revert k. induction c as [|b c IH]; intros k; simpl.
  - split; [by intros ?%elem_of_nil|by intros [_ ?]].
  - assert (Hcase : j ∈ where_from (S k) c ↔
                    (k < j)%nat ∧ (b :: c) !! (j - k)%nat = Some true).
    { rewrite IH. split.
      - intros [Hle Hc]. split; [lia|].
        by replace (j - k)%nat with (S (j - S k)) by lia.
      - intros [Hlt Hc]. split; [lia|].
        by replace (j - k)%nat with (S (j - S k)) in Hc by lia. }
    destruct b.
    + rewrite elem_of_cons, Hcase. split.
      * intros [->|[Hlt Hc]]; [by rewrite Nat.sub_diag|]. split; [lia|done].
      * intros [Hle Hc]. destruct (decide (j = k)) as [->|Hne]; [by left|].
        right. split; [lia|done].
    + rewrite Hcase. split.
      * intros [Hlt Hc]. split; [lia|done].
      * intros [Hle Hc]. destruct (decide (j = k)) as [->|Hne].
        { by rewrite Nat.sub_diag in Hc. }
        split; [lia|done].
Qed.

Lemma elem_of_np_where (c : list bool) (j : nat) :
  j ∈ np_where c ↔ c !! j = Some true.
Proof.
  unfold np_where. rewrite elem_of_where_from, Nat.sub_0_r. split; [by intros [_ ?]|].
  intros ?. split; [lia|done].
Qed.

Lemma length_where_from (k : nat) (c : list bool) :
  (length (where_from k c) ≤ length c)%nat.
Proof.
  revert k. induction c as [|b c IH]; intros k; simpl; [done|].
  specialize (IH (S k)). destruct b; simpl; lia.
Qed.

Lemma np_where_lt (c : list bool) : Forall (λ j, j < length c)%nat (np_where c).
Proof.
  apply Forall_forall. intros j Hj%elem_of_np_where. by eapply lookup_lt_Some.
Qed.

Section IndexArrays.
Context {T : Type}.

Lemma np_take_ok (a : list T) (idx : list nat) :
  Forall (λ k, k < length a)%nat idx →
  ∃ vs, np_take a idx = inr vs ∧ length vs = length idx.
Proof.
  induction 1 as [|k idx Hk _ (vs & Hvs & Hlen)]; simpl; [by exists []|].
  destruct (lookup_lt_is_Some_2 a k Hk) as [v Hv].
  rewrite (np_get_in_range a (Z.of_nat k) v) by (rewrite ?Nat2Z.id; done || lia).
  simpl. rewrite Hvs. simpl. exists (v :: vs). simpl. by rewrite Hlen.
Qed.

Lemma np_put_ok (a : list T) (idx : list nat) (vals : list T) :
  Forall (λ k, k < length a)%nat idx → length vals = length idx →
  ∃ a', np_put a idx vals = inr a' ∧ length a' = length a ∧
        ∀ j, j ∉ idx → a' !! j = a !! j.
Proof.
  intros Hidx. revert a vals Hidx.
  induction idx as [|k idx IH]; intros a [|v vals] Hidx Hlen; simpl in *; try done.
  { by exists a. }
  apply Forall_cons in Hidx as [Hk Hidx].
  rewrite np_set_in_range by lia. simpl. rewrite Nat2Z.id.
  destruct (IH (<[k:=v]> a) vals) as (a' & Ha' & Hlen' & Hout).
  { by rewrite length_insert. }
  { lia. }
  exists a'. split; [done|]. rewrite Hlen', length_insert. split; [done|].
  intros j Hj. apply not_elem_of_cons in Hj as [Hjk Hj].
  rewrite (Hout j Hj). by apply list_lookup_insert_ne.
Qed.
End IndexArrays.

Section ObservedPmf.
Context (A : Arith) (L : Libm A).

Lemma write_records (bin_center_i pmf dpmf : list (num A)) (idx : list nat)
    (lines : list (num A * num A * num A)) :
  Forall (λ k, k < length bin_center_i)%nat idx →
  Forall (λ k, k < length pmf)%nat idx →
  Forall (λ k, k < length dpmf)%nat idx →
  ∃ out, for_each (λ lines i,
           c ← np_get bin_center_i (Z.of_nat i);
           v ← np_get pmf (Z.of_nat i);
           d ← np_get dpmf (Z.of_nat i);
           mret (lines ++ [(c, v, d)])) lines idx = inr (lines ++ out) ∧
         records_of A bin_center_i pmf dpmf idx out.
Proof.
  revert lines. induction idx as [|k idx IH]; intros lines Hc Hp Hd; simpl.
  { exists []. rewrite app_nil_r. split; [done|constructor]. }
  apply Forall_cons in Hc as [Hkc Hc]. apply Forall_cons in Hp as [Hkp Hp].
  apply Forall_cons in Hd as [Hkd Hd].
  destruct (lookup_lt_is_Some_2 bin_center_i k Hkc) as [c Hcv].
  destruct (lookup_lt_is_Some_2 pmf k Hkp) as [v Hv].
  destruct (lookup_lt_is_Some_2 dpmf k Hkd) as [d Hdv].
  rewrite (np_get_in_range bin_center_i (Z.of_nat k) c) by (rewrite ?Nat2Z.id; done || lia).
  simpl.
  rewrite (np_get_in_range pmf (Z.of_nat k) v) by (rewrite ?Nat2Z.id; done || lia).
  simpl.
  rewrite (np_get_in_range dpmf (Z.of_nat k) d) by (rewrite ?Nat2Z.id; done || lia).
  simpl.
  destruct (IH (lines ++ [(c, v, d)]) Hc Hp Hd) as (out & Hout & Hrec).
  exists ((c, v, d) :: out). rewrite <- app_assoc in Hout. split; [exact Hout|].
  by constructor.
Qed.

End ObservedPmf.



(** ** The observed histogram in every arithmetic *)

Section CountingAny.
Context (A : Arith) (L : Libm A).
Context (NBINS : Z) (bin_kt : list (list Z)) (l : Z) (row : list Z) (T : Z).
Hypothesis Hl : 0 ≤ l.
Hypothesis Hrow : bin_kt !! Z.to_nat l = Some row.
Hypothesis HT : 0 ≤ T ≤ Z.of_nat (length row).
Hypothesis Hbins : Forall (λ b, 0 ≤ b < NBINS) (take (Z.to_nat T) row).

Lemma count_loop_any :
  ∃ N_i, for_each (count_sample A bin_kt l)
           (replicate (Z.to_nat NBINS) (zero A)) (py_range T) = inr N_i ∧
         length N_i = Z.to_nat NBINS ∧
         ∀ i, 0 ≤ i < NBINS →
           N_i !! Z.to_nat i = Some (count_up A (occupancy row (Z.to_nat T) i)).
Proof.
  destruct (for_each_range (count_sample A bin_kt l)
    (λ t N_i, length N_i = Z.to_nat NBINS ∧
       ∀ i, 0 ≤ i < NBINS →
         N_i !! Z.to_nat i = Some (count_up A (occupancy row (Z.to_nat t) i)))
    (replicate (Z.to_nat NBINS) (zero A)) T) as (N_i & HN & HI).
  - split; [by rewrite length_replicate|].
    intros i Hi. rewrite lookup_replicate_2 by lia. done.
  - intros t N_i Ht (Hlen & Hcnt).
    destruct (lookup_lt_is_Some_2 row (Z.to_nat t)) as [b Hb]; [lia|].
    assert (Hbr : 0 ≤ b < NBINS).
    { eapply (Forall_lookup_1 _ _ (Z.to_nat t) b Hbins).
      rewrite lookup_take_lt by lia. done. }
    unfold count_sample.
    rewrite (np_get_in_range bin_kt l row Hl Hrow). simpl.
    rewrite (np_get_in_range row t b ltac:(lia) Hb). simpl.
    rewrite (np_get_in_range N_i b _ ltac:(lia) (Hcnt b Hbr)). simpl.
    rewrite np_set_in_range by lia. simpl.
    eexists. split; [done|]. split; [by rewrite length_insert|].
    intros i Hi. replace (Z.to_nat (t + 1)) with (S (Z.to_nat t)) by lia.
    rewrite (occupancy_S _ _ b i Hb).
    destruct (decide (b = i)) as [->|Hne].
    + rewrite list_lookup_insert_eq by lia. by rewrite Nat.add_1_r.
    + rewrite list_lookup_insert_ne by lia. rewrite Nat.add_0_r. by apply Hcnt.
  - exists N_i. by rewrite Z.max_l in HI by lia.
Qed.
End CountingAny.

Section UncertaintyAny.
Context (A : Arith) (L : Libm A).
Context (NBINS : Z) (g_k : list (num A)) (l : Z) (g : num A).
Hypothesis HNBINS : 0 ≤ NBINS.
Hypothesis Hl : 0 ≤ l.
Hypothesis Hg : g_k !! Z.to_nat l = Some g.

Lemma uncertainty_loop_any (N_i : list (num A)) (N : num A) :
  length N_i = Z.to_nat NBINS →
  ∃ dN_i, for_each (count_uncertainty A L g_k l N_i N)
            (replicate (Z.to_nat NBINS) (zero A)) (py_range NBINS) = inr dN_i ∧
          length dN_i = Z.to_nat NBINS ∧
          ∀ i n, 0 ≤ i < NBINS → N_i !! Z.to_nat i = Some n →
            dN_i !! Z.to_nat i
            = Some (np_sqrt L (mul A (mul A g n) (sub A (one A) (div A n N)))).
Proof.
  intros Hlen.
  destruct (for_each_range (count_uncertainty A L g_k l N_i N)
    (λ k dN_i, length dN_i = Z.to_nat NBINS ∧
       ∀ i n, 0 ≤ i < k → N_i !! Z.to_nat i = Some n →
         dN_i !! Z.to_nat i
         = Some (np_sqrt L (mul A (mul A g n) (sub A (one A) (div A n N)))))
    (replicate (Z.to_nat NBINS) (zero A)) NBINS) as (dN_i & HdN & HI).
  - split; [by rewrite length_replicate|]. intros; lia.
  - intros k dN Hk (HlenD & Hprev).
    destruct (lookup_lt_is_Some_2 N_i (Z.to_nat k)) as [n Hn]; [lia|].
    unfold count_uncertainty.
    rewrite (np_get_in_range g_k l g Hl Hg). simpl.
    rewrite (np_get_in_range N_i k n ltac:(lia) Hn). simpl.
    rewrite np_set_in_range by lia. simpl.
    eexists. split; [done|]. split; [by rewrite length_insert|].
    intros i n' Hi Hn'. destruct (decide (i = k)) as [->|Hne].
    + rewrite Hn in Hn'. injection Hn' as <-.
      rewrite list_lookup_insert_eq by lia. done.
    + rewrite list_lookup_insert_ne by lia. apply Hprev; [lia|done].
  - exists dN_i. by rewrite Z.max_l in HI by lia.
Qed.
End UncertaintyAny.



(** ** [get_sn]: the counts it refuses, and what its result holds *)

(** A loop over [range(n)] that raises in turn [j], the turns before it
    keeping an invariant. *)
Lemma for_each_range_raises {St : Type} (body : St → Z → exc St)
    (Inv : Z → St → Prop) (s0 : St) (n j : Z) (e : py_error) :
  0 ≤ j < n → Inv 0 s0 →
  (∀ i s, 0 ≤ i < j → Inv i s → ∃ s', body s i = inr s' ∧ Inv (i + 1) s') →
  (∀ s, Inv j s → body s j = inl e) →
  for_each body s0 (py_range n) = inl e.
Proof.
  intros Hj H0 Hstep Hfail.
  destruct (for_each_range body Inv s0 j H0 Hstep) as (s & Hs & HI).
  rewrite Z.max_l in HI by lia.
  unfold py_range in *. replace n with (j + (n - j)) by lia.
  rewrite seqZ_app by lia. rewrite for_each_app, Hs. simpl.
  rewrite (seqZ_cons (0 + j)) by lia. simpl.
  rewrite Z.add_0_l, (Hfail s HI). done.
Qed.

Lemma written_before_S (N_k : list Z) (i : nat) (N : Z) :
  N_k !! i = Some N → written_before N_k (S i) = written_before N_k i + Z.max 0 N.
Proof.
  intros H. unfold written_before.
  rewrite (take_S_r _ _ _ H), fmap_app, py_sum_app. simpl.
  rewrite py_sum_cons. change (py_sum []) with 0.
  generalize (py_sum (Z.max 0 <$> take i N_k)). lia.
Qed.

Lemma written_before_0 (N_k : list Z) : written_before N_k 0 = 0.
Proof. unfold written_before. by rewrite take_0. Qed.

Lemma written_before_mono (N_k : list Z) (i j : nat) :
  (i ≤ j)%nat → written_before N_k i ≤ written_before N_k j.
Proof.
  induction 1 as [|j Hle IH]; [done|].
  destruct (N_k !! j) as [N|] eqn:HN.
  - rewrite (written_before_S _ _ _ HN). lia.
  - unfold written_before in *. apply lookup_ge_None in HN.
    rewrite (take_ge N_k (S j)) by lia. by rewrite (take_ge N_k j) in IH by lia.
Qed.

(** With a negative count the loops write more than [sum(N_k)] entries. *)
Lemma written_exceeds_sum (N_k : list Z) :
  Exists (λ N, N < 0) N_k → py_sum N_k < py_sum (Z.max 0 <$> N_k).
Proof.
  assert (Hle : ∀ l, py_sum l ≤ py_sum (Z.max 0 <$> l)).
  { induction l as [|x l IH]; [done|]. rewrite fmap_cons, !py_sum_cons.
    revert IH. generalize (py_sum (Z.max 0 <$> l)). lia. }
  induction 1 as [x l Hx|x l _ IH]; rewrite fmap_cons, !py_sum_cons.
  - specialize (Hle l). revert Hle. generalize (py_sum (Z.max 0 <$> l)). lia.
  - revert IH. generalize (py_sum (Z.max 0 <$> l)). lia.
Qed.

(** The first state whose turn runs past the end of [s_n]. *)
Lemma first_overflow (N_k : list Z) (S0 : Z) :
  0 ≤ S0 < written_before N_k (length N_k) →
  ∃ j N, N_k !! j = Some N ∧
         written_before N_k j ≤ S0 < written_before N_k j + N.
Proof.
  intros HS.
  assert (H : ∀ n : nat, (n ≤ length N_k)%nat → S0 < written_before N_k n →
    ∃ j N, N_k !! j = Some N ∧ written_before N_k j ≤ S0 < written_before N_k j + N).
  { induction n as [|n IH]; intros Hn Hlt.
    - rewrite written_before_0 in Hlt. lia.
    - destruct (lookup_lt_is_Some_2 N_k n) as [N HN]; [lia|].
      destruct (Z.lt_ge_cases S0 (written_before N_k n)) as [Hlt'|Hge].
      + apply IH; [lia|done].
      + exists n, N. split; [done|]. rewrite (written_before_S _ _ _ HN) in Hlt. lia. }
  apply (H (length N_k)); [done|lia].
Qed.

Section Inner.
Context (i : Z).

Lemma get_sn_turn_fits (arr : list Z) (c N : Z) :
  0 ≤ c → c + Z.max 0 N ≤ Z.of_nat (length arr) →
  ∃ arr', for_each (get_sn_turn i) (arr, c) (py_range N) = inr (arr', c + Z.max 0 N) ∧
          length arr' = length arr.
Proof.
  intros Hc Hfit.
  destruct (for_each_range (get_sn_turn i)
    (λ k st, length st.1 = length arr ∧ st.2 = c + k) (arr, c) N)
    as ([arr' c'] & Hst & Hlen & Hc').
  - simpl. split; [done|lia].
  - intros k [a c0] Hk [Hlen Hc0]. simpl in *. subst c0. unfold get_sn_turn. simpl.
    rewrite np_set_in_range by lia. simpl. eexists. split; [done|]. simpl.
    split; [by rewrite length_insert|lia].
  - simpl in *. exists arr'. split; [|done]. rewrite Hst. do 2 f_equal. lia.
Qed.

Lemma np_set_at_end (arr : list Z) (v : Z) :
  np_set arr (Z.of_nat (length arr)) v = inl IndexError.
Proof.
  unfold np_set, np_index.
  rewrite (proj2 (Z.ltb_ge _ _)) by lia. rewrite andb_false_r.
  rewrite (proj2 (Z.ltb_ge (Z.of_nat (length arr)) 0)) by lia.
  by rewrite andb_false_r.
Qed.

Lemma get_sn_turn_overflows (arr : list Z) (c N : Z) :
  0 ≤ c ≤ Z.of_nat (length arr) → Z.of_nat (length arr) < c + N →
  for_each (get_sn_turn i) (arr, c) (py_range N) = inl IndexError.
Proof.
  intros Hc Hover.
  apply (for_each_range_raises (get_sn_turn i)
    (λ k st, length st.1 = length arr ∧ st.2 = c + k) (arr, c) N
    (Z.of_nat (length arr) - c)).
  - lia.
  - simpl. split; [done|lia].
  - intros k [a c0] Hk [Hlen Hc0]. simpl in *. subst c0. unfold get_sn_turn. simpl.
    rewrite np_set_in_range by lia. simpl. eexists. split; [done|]. simpl.
    split; [by rewrite length_insert|lia].
  - intros [a c0] [Hlen Hc0]. simpl in *. subst c0. unfold get_sn_turn. simpl.
    replace (c + (Z.of_nat (length arr) - c)) with (Z.of_nat (length a)) by lia.
    by rewrite np_set_at_end.
Qed.
End Inner.

(** [get_sn] refuses every vector with a negative count: with
    [ValueError] (from [np.zeros]) when the counts sum to a negative number,
    and otherwise with [IndexError], when the writes for the positive counts
    run past the [sum(N_k)] entries of [s_n]. *)
Theorem get_sn_negative_count_raises (N_k : list Z) :
  Exists (λ N, N < 0) N_k →
  get_sn N_k = inl (if py_sum N_k <? 0 then ValueError else IndexError).
Proof.
  intros Hneg. unfold get_sn, np_zeros_int.
  destruct (Z.ltb_spec (py_sum N_k) 0) as [Hlt|Hge]; [done|]. simpl.
  pose proof (written_exceeds_sum N_k Hneg) as Hex.
  destruct (first_overflow N_k (py_sum N_k)) as (j & N & HN & Hj).
  { unfold written_before. rewrite take_ge by lia.
    revert Hex. generalize (py_sum (Z.max 0 <$> N_k)). lia. }
  apply lookup_lt_Some in HN as Hjlt.
  match goal with |- context [for_each ?b ?s ?l] =>
    rewrite (for_each_range_raises b
      (λ i st, length st.1 = Z.to_nat (py_sum N_k) ∧
               st.2 = written_before N_k (Z.to_nat i))
      s (Z.of_nat (length N_k)) (Z.of_nat j) IndexError)
  end; [done|lia| | |].
  - simpl. rewrite length_replicate. by rewrite written_before_0.
  - intros i [arr c] Hi [Hlen Hc0]. simpl in *. subst c.
    destruct (lookup_lt_is_Some_2 N_k (Z.to_nat i)) as [Ni HNi]; [lia|].
    rewrite (np_get_in_range _ _ _ (proj1 Hi) HNi). simpl.
    pose proof (written_before_S _ _ _ HNi) as HS.
    pose proof (written_before_mono N_k (S (Z.to_nat i)) j ltac:(lia)).
    pose proof (written_before_mono N_k 0 (Z.to_nat i) ltac:(lia)) as H0.
    rewrite written_before_0 in H0.
    destruct (get_sn_turn_fits i arr (written_before N_k (Z.to_nat i)) Ni)
      as (arr' & Harr' & Hlen'); [lia|lia|].
    exists (arr', written_before N_k (Z.to_nat i) + Z.max 0 Ni).
    split; [exact Harr'|]. simpl. split; [lia|].
    replace (Z.to_nat (i + 1)) with (S (Z.to_nat i)) by lia. lia.
  - intros [arr c] [Hlen Hc0]. simpl in *. subst c. rewrite Nat2Z.id.
    rewrite (np_get_in_range N_k (Z.of_nat j) N) by (rewrite ?Nat2Z.id; done || lia).
    simpl.
    pose proof (written_before_mono N_k 0 j ltac:(lia)) as H0.
    rewrite written_before_0 in H0.
    apply (get_sn_turn_overflows (Z.of_nat j)); lia.
Qed.

Lemma get_sn_negative_count_raises_witness :
  get_sn [2; -1; 3] = inl (if py_sum [2; -1; 3] <? 0 then ValueError else IndexError).
Proof.
  apply (get_sn_negative_count_raises [2; -1; 3]).
  apply Exists_cons_tl, Exists_cons_hd. lia.
Defined.

(** ** The states in the result of [get_sn] *)

Lemma count_occ_replicate_eq (n : nat) (v : Z) :
  count_occ Z.eq_dec (replicate n v) v = n.
Proof.
  induction n as [|n IH]; [done|]. simpl. destruct (Z.eq_dec v v); [|done].
  by rewrite IH.
Qed.

Lemma count_occ_replicate_ne (n : nat) (v w : Z) :
  v ≠ w → count_occ Z.eq_dec (replicate n v) w = 0%nat.
Proof.
  intros Hne. induction n as [|n IH]; [done|]. simpl.
  destruct (Z.eq_dec v w); [done|]. exact IH.
Qed.

Lemma count_occ_blocks_below (i0 : Z) (N_k : list Z) (v : Z) :
  v < i0 → count_occ Z.eq_dec (blocks i0 N_k) v = 0%nat.
Proof.
  revert i0. induction N_k as [|N l IH]; intros i0 Hv; simpl; [done|].
  rewrite count_occ_app, count_occ_replicate_ne by lia. rewrite IH by lia. done.
Qed.

Lemma count_occ_blocks (i0 : Z) (N_k : list Z) (j : nat) (N : Z) :
  N_k !! j = Some N →
  count_occ Z.eq_dec (blocks i0 N_k) (i0 + Z.of_nat j) = Z.to_nat N.
Proof.
  revert i0 j. induction N_k as [|N0 l IH]; intros i0 j Hj; [done|].
  destruct j as [|j]; simpl in Hj; cbn [blocks].
  - injection Hj as ->. rewrite count_occ_app. change (Z.of_nat 0) with 0.
    rewrite Z.add_0_r, count_occ_replicate_eq.
    rewrite count_occ_blocks_below by lia. lia.
  - rewrite count_occ_app, count_occ_replicate_ne by lia.
    replace (i0 + Z.of_nat (S j)) with (i0 + 1 + Z.of_nat j) by lia.
    by rewrite (IH (i0 + 1) j Hj).
Qed.

Lemma blocks_sorted (i0 : Z) (N_k : list Z) :
  StronglySorted Z.le (blocks i0 N_k) ∧ Forall (Z.le i0) (blocks i0 N_k).
Proof.
  revert i0. induction N_k as [|N l IH]; intros i0; simpl.
  { split; constructor. }
  destruct (IH (i0 + 1)) as [Hs Hge].
  assert (Hge' : Forall (Z.le i0) (blocks (i0 + 1) l)).
  { eapply Forall_impl; [exact Hge|]. simpl. lia. }
  split.
  - induction (Z.to_nat N) as [|n IHn]; simpl; [done|].
    constructor; [done|]. apply Forall_app. split; [|done].
    apply Forall_replicate. lia.
  - apply Forall_app. split; [|done]. apply Forall_replicate. lia.
Qed.

(** For counts that are not negative, the result of [get_sn] holds state
    [i] exactly [N_k[i]] times (a state with no sample does not occur), and
    its states never decrease along the samples. *)
Theorem get_sn_counts_back (N_k : list Z) :
  Forall (Z.le 0) N_k →
  ∃ s_n, get_sn N_k = inr s_n ∧
    (∀ (i : nat) (N : Z), N_k !! i = Some N →
       Z.of_nat (count_occ Z.eq_dec s_n (Z.of_nat i)) = N) ∧
    StronglySorted Z.le s_n.
Proof.
  intros Hpos. exists (blocks 0 N_k). split; [by apply get_sn_blocks|]. split.
  - intros i N HN. pose proof (count_occ_blocks 0 N_k i N HN) as Hc.
    rewrite Z.add_0_l in Hc. rewrite Hc.
    eapply Forall_lookup_1 in HN; [|exact Hpos]. simpl in HN. lia.
  - apply blocks_sorted.
Qed.

Lemma get_sn_counts_back_witness :
  ∃ s_n, get_sn [2; 0; 3] = inr s_n ∧
    (∀ (i : nat) (N : Z), [2; 0; 3] !! i = Some N →
       Z.of_nat (count_occ Z.eq_dec s_n (Z.of_nat i)) = N) ∧
    StronglySorted Z.le s_n.
Proof.
  apply (get_sn_counts_back [2; 0; 3]). repeat constructor; lia.
Defined.

(** ** [save]: what a call leaves in the files *)

Lemma createCArray_inv (f f' : gmap string ndarray) (name : string) (a : atom)
    (obj : ndarray) :
  createCArray f name a obj = inr f' →
  f !! name = None ∧ f' = <[name := obj]> f.
Proof.
  unfold createCArray. destruct (decide (atom_of obj = a)); [|done].
  destruct (f !! name); [done|]. by intros [= <-].
Qed.

(** What a call of [save] that returns has done. *)
Lemma save_inv (fs fs' : gmap string (gmap string ndarray)) (name : string)
    (u_kn : array2d) (N_k : list Z) (s_n : option (list Z)) :
  save fs name u_kn N_k s_n = inr fs' →
  ∃ (N_k' s_n' : list Z),
    let f0 := tables_open_append fs (hdf_filename name) in
    f0 !! "u_kn" = None ∧ f0 !! "N_k" = None ∧ f0 !! "s_n" = None ∧
    fs' = <[hdf_filename name :=
             <["s_n" := Int64_1d s_n']> (<["N_k" := Int64_1d N_k']>
               (<["u_kn" := Float64_2d u_kn]> f0))]> fs.
Proof.
  destruct u_kn as [[n_states n_samples] u]. unfold save. simpl.
  unfold ensure_type_float_2d. simpl.
  destruct (decide ((n_states, n_samples) = (n_states, n_samples))); [|done]. simpl.
  destruct (ensure_type_int64_1d N_k n_states) as [e1|N_k']; [done|]. simpl.
  destruct (match s_n with Some s => mret s | None => get_sn N_k' end) as [e2|s0];
    [done|]. simpl.
  destruct (ensure_type_int64_1d s0 n_samples) as [e3|s_n']; [done|]. simpl.
  destruct (createCArray _ "u_kn" _ _) as [e4|f1] eqn:H1; [done|]. simpl.
  destruct (createCArray f1 "N_k" _ _) as [e5|f2] eqn:H2; [done|]. simpl.
  destruct (createCArray f2 "s_n" _ _) as [e6|f3] eqn:H3; [done|]. simpl.
  intros [= <-].
  apply createCArray_inv in H1 as [Hu ->].
  apply createCArray_inv in H2 as [Hn ->].
  apply createCArray_inv in H3 as [Hs ->].
  rewrite lookup_insert_ne in Hn by done.
  rewrite !lookup_insert_ne in Hs by done.
  by exists N_k', s_n'.
Qed.

(** [save] does not overwrite: once a call for a name has returned, no later
    call for that name returns, whatever the data; with well-shaped data the
    error is the [NodeError] of [createCArray]. *)
Theorem save_twice_raises (fs fs' : gmap string (gmap string ndarray))
    (name : string) (u_kn : array2d) (N_k : list Z) (s_n : option (list Z)) :
  save fs name u_kn N_k s_n = inr fs' →
  (∀ u_kn' N_k' s_n' fs'', save fs' name u_kn' N_k' s_n' ≠ inr fs'') ∧
  (∀ u_kn' N_k' s_n',
     Z.of_nat (length N_k') = (shape u_kn').1 →
     Z.of_nat (length s_n') = (shape u_kn').2 →
     save fs' name u_kn' N_k' (Some s_n') = inl NodeError).
Proof.
  intros Hsave. destruct (save_inv _ _ _ _ _ _ Hsave) as (N1 & s1 & _ & _ & _ & ->).
  assert (Hopen : tables_open_append
            (<[hdf_filename name :=
                <["s_n" := Int64_1d s1]> (<["N_k" := Int64_1d N1]>
                  (<["u_kn" := Float64_2d u_kn]>
                     (tables_open_append fs (hdf_filename name))))]> fs)
            (hdf_filename name) !! "u_kn" = Some (Float64_2d u_kn)).
  { unfold tables_open_append at 1. rewrite lookup_insert_eq. simpl.
    rewrite !lookup_insert_ne by done. by rewrite lookup_insert_eq. }
  split.
  - intros u' N' s' fs'' Hagain.
    destruct (save_inv _ _ _ _ _ _ Hagain) as (N2 & s2 & Hu & _).
    simpl in Hu. rewrite Hopen in Hu. done.
  - intros [[n_states n_samples] u'] N' s' HN Hs. simpl in HN, Hs.
    unfold save, ensure_type_float_2d, ensure_type_int64_1d. simpl.
    destruct (decide ((n_states, n_samples) = (n_states, n_samples))); [|done].
    simpl. rewrite (proj2 (Z.eqb_eq _ _) HN). simpl.
    rewrite (proj2 (Z.eqb_eq _ _) Hs). simpl.
    match goal with |- context [createCArray ?f "u_kn" _ _] =>
      assert (Hf : f !! "u_kn" = Some (Float64_2d u_kn)) by exact Hopen;
      unfold createCArray; rewrite Hf
    end.
    done.
Qed.

Lemma save_twice_raises_witness :
  (∀ u_kn' N_k' s_n' fs'',
     save (<[hdf_filename "gas" :=
              <["s_n" := Int64_1d [0; 1; 1]]> (<["N_k" := Int64_1d [1; 2]]>
                (<["u_kn" := Float64_2d (MkArray2d (2, 3) [1; 2; 3; 4; 5; 6]%float)]>
                   ∅))]> ∅) "gas" u_kn' N_k' s_n' ≠ inr fs'') ∧
  (∀ u_kn' N_k' s_n',
     Z.of_nat (length N_k') = (shape u_kn').1 →
     Z.of_nat (length s_n') = (shape u_kn').2 →
     save (<[hdf_filename "gas" :=
              <["s_n" := Int64_1d [0; 1; 1]]> (<["N_k" := Int64_1d [1; 2]]>
                (<["u_kn" := Float64_2d (MkArray2d (2, 3) [1; 2; 3; 4; 5; 6]%float)]>
                   ∅))]> ∅) "gas" u_kn' N_k' (Some s_n') = inl NodeError).
Proof.
  apply (save_twice_raises ∅ _ "gas" (MkArray2d (2, 3) [1; 2; 3; 4; 5; 6]%float)
           [1; 2] (Some [0; 1; 1])).
  reflexivity.
Defined.

(** ** [get_sn], and what [save] stores when it is called without [s_n] *)

Lemma blocks_bounds (i0 : Z) (N_k : list Z) :
  Forall (λ v, i0 ≤ v < i0 + Z.of_nat (length N_k)) (blocks i0 N_k).
Proof.
  revert i0. induction N_k as [|N l IH]; intros i0; simpl; [constructor|].
  apply Forall_app. split.
  - apply Forall_replicate. lia.
  - eapply Forall_impl; [apply (IH (i0 + 1))|]. simpl. lia.
Qed.

(** The file [save] leaves when it is called without [s_n]. *)
Lemma save_without_states (fs : gmap string (gmap string ndarray))
    (name : string) (u_kn : array2d) (N_k : list Z) :
  Z.of_nat (length N_k) = (shape u_kn).1 →
  py_sum N_k = (shape u_kn).2 →
  Forall (λ N, 0 ≤ N < 2 ^ 63) N_k →
  Z.of_nat (length N_k) ≤ 2 ^ 63 →
  (∀ f, fs !! hdf_filename name = Some f →
        f !! "u_kn" = None ∧ f !! "N_k" = None ∧ f !! "s_n" = None) →
  save fs name u_kn N_k None
  = inr (<[hdf_filename name :=
            <["s_n" := Int64_1d (blocks 0 N_k)]> (<["N_k" := Int64_1d N_k]>
              (<["u_kn" := Float64_2d u_kn]>
                 (tables_open_append fs (hdf_filename name))))]> fs).
Proof.
  destruct u_kn as [[n_states n_samples] u]. simpl.
  intros HN Hsum Hrange HK Hfresh.
  assert (Hpos : Forall (Z.le 0) N_k).
  { eapply Forall_impl; [exact Hrange|]. simpl. lia. }
  assert (H64 : Forall in_int64 N_k).
  { eapply Forall_impl; [exact Hrange|]. unfold in_int64. simpl. lia. }
  assert (Hs64 : Forall in_int64 (blocks 0 N_k)).
  { eapply Forall_impl; [apply blocks_bounds|]. unfold in_int64. simpl. lia. }
  unfold save, ensure_type_float_2d, ensure_type_int64_1d. simpl.
  destruct (decide ((n_states, n_samples) = (n_states, n_samples))); [|done].
  simpl. rewrite (proj2 (Z.eqb_eq _ _) HN). simpl.
  rewrite (to_int64_fmap_id N_k H64), (get_sn_blocks N_k Hpos). simpl.
  rewrite length_blocks, Hsum by done. rewrite Z.eqb_refl. simpl.
  rewrite (to_int64_fmap_id _ Hs64).
  set (f0 := tables_open_append fs (hdf_filename name)).
  assert (Hf0 : f0 !! "u_kn" = None ∧ f0 !! "N_k" = None ∧ f0 !! "s_n" = None).
  { unfold f0, tables_open_append.
    destruct (fs !! hdf_filename name) as [f|] eqn:Hf; simpl; [by apply Hfresh|].
    by rewrite !lookup_empty. }
  destruct Hf0 as (Hu & Hn & Hsn).
  unfold createCArray. simpl. rewrite Hu. simpl.
  rewrite lookup_insert_ne, Hn by done. simpl.
  rewrite !lookup_insert_ne, Hsn by done. simpl. done.
Qed.

(** C7: for a vector [N_k] of nonnegative counts [get_sn] returns a vector
    of length [sum(N_k)] in which sample [n] has state [i] exactly when [n]
    lies in [[N_k[0] + ... + N_k[i-1], N_k[0] + ... + N_k[i])]; and that
    vector is what [save] called without [s_n] writes to the node [s_n] of
    the file, beside the counts, when the counts fit the shape of [u_kn] and
    int64 and the file does not hold the nodes yet. *)
Theorem get_sn_contiguous_ranges (N_k : list Z) :
  Forall (Z.le 0) N_k →
  ∃ s_n, get_sn N_k = inr s_n ∧
    Z.of_nat (length s_n) = py_sum N_k ∧
    (∀ n i : nat, (n < length s_n)%nat → (i < length N_k)%nat →
       s_n !! n = Some (Z.of_nat i)
       ↔ prefix_sum N_k i ≤ Z.of_nat n < prefix_sum N_k (S i)) ∧
    (∀ (fs : gmap string (gmap string ndarray)) (name : string) (u_kn : array2d),
       Z.of_nat (length N_k) = (shape u_kn).1 →
       py_sum N_k = (shape u_kn).2 →
       Forall (λ N, N < 2 ^ 63) N_k →
       Z.of_nat (length N_k) ≤ 2 ^ 63 →
       (∀ f, fs !! hdf_filename name = Some f →
             f !! "u_kn" = None ∧ f !! "N_k" = None ∧ f !! "s_n" = None) →
       ∃ fs' f, save fs name u_kn N_k None = inr fs' ∧
         fs' !! hdf_filename name = Some f ∧
         f !! "N_k" = Some (Int64_1d N_k) ∧
         f !! "s_n" = Some (Int64_1d s_n)).
Proof.
  intros Hpos. exists (blocks 0 N_k). split; [by apply get_sn_blocks|].
  split; [by apply length_blocks|]. split.
  - intros n i Hn Hi.
    assert (Hn' : Z.of_nat n < py_sum N_k) by (rewrite <- (length_blocks 0); [lia|done]).
    split.
    + intros Hl.
      destruct (prefix_sum_cover N_k n Hpos Hn') as (j & Hj & Hr).
      rewrite (blocks_lookup 0 N_k j n Hpos Hj Hr) in Hl.
      assert (j = i) by (injection Hl; lia). by subst j.
    + intros Hr. by rewrite (blocks_lookup 0 N_k i n Hpos Hi Hr).
  - intros fs name u_kn HN Hsum Hlt HK Hfresh.
    assert (Hrange : Forall (λ N, 0 ≤ N < 2 ^ 63) N_k).
    { apply Forall_forall. intros N HNin.
      rewrite Forall_forall in Hpos, Hlt.
      specialize (Hpos N HNin). specialize (Hlt N HNin). simpl in *. lia. }
    eexists _, _. split; [by apply save_without_states|].
    split; [by rewrite lookup_insert_eq|].
    split; [by rewrite lookup_insert_ne, lookup_insert_eq|].
    by rewrite lookup_insert_eq.
Qed.

Lemma get_sn_contiguous_ranges_witness :
  Forall (Z.le 0) [2; 0; 3] ∧
  ∃ s_n, get_sn [2; 0; 3] = inr s_n ∧
    Z.of_nat (length s_n) = py_sum [2; 0; 3] ∧
    (∀ n i : nat, (n < length s_n)%nat → (i < length [2; 0; 3])%nat →
       s_n !! n = Some (Z.of_nat i)
       ↔ prefix_sum [2; 0; 3] i ≤ Z.of_nat n < prefix_sum [2; 0; 3] (S i)) ∧
    (∀ (fs : gmap string (gmap string ndarray)) (name : string) (u_kn : array2d),
       Z.of_nat (length [2; 0; 3]) = (shape u_kn).1 →
       py_sum [2; 0; 3] = (shape u_kn).2 →
       Forall (λ N, N < 2 ^ 63) [2; 0; 3] →
       Z.of_nat (length [2; 0; 3]) ≤ 2 ^ 63 →
       (∀ f, fs !! hdf_filename name = Some f →
             f !! "u_kn" = None ∧ f !! "N_k" = None ∧ f !! "s_n" = None) →
       ∃ fs' f, save fs name u_kn [2; 0; 3] None = inr fs' ∧
         fs' !! hdf_filename name = Some f ∧
         f !! "N_k" = Some (Int64_1d [2; 0; 3]) ∧
         f !! "s_n" = Some (Int64_1d s_n)).
Proof.
  assert (H : Forall (Z.le 0) [2; 0; 3]) by (repeat constructor; lia).
  split; [exact H|]. exact (get_sn_contiguous_ranges [2; 0; 3] H).
Defined.

(** ** [save] without [s_n], then [load_from_hdf] *)

(** When the counts are not negative and sum to the number of samples,
    [save] called without [s_n] stores, and [load_from_hdf] returns, the
    vector in which the samples of state [0] come first, then those of state
    [1], and so on, together with [u_kn] and [N_k] as they were given. *)
Theorem save_without_states_then_load (fs : gmap string (gmap string ndarray))
    (name : string) (u_kn : array2d) (N_k : list Z) :
  Z.of_nat (length N_k) = (shape u_kn).1 →
  py_sum N_k = (shape u_kn).2 →
  Forall (λ N, 0 ≤ N < 2 ^ 63) N_k →
  Z.of_nat (length N_k) ≤ 2 ^ 63 →
  (∀ f, fs !! hdf_filename name = Some f →
        f !! "u_kn" = None ∧ f !! "N_k" = None ∧ f !! "s_n" = None) →
  ∃ fs' s_n, save fs name u_kn N_k None = inr fs' ∧
    get_sn N_k = inr s_n ∧
    load_from_hdf fs' (hdf_filename name)
    = inr (Float64_2d u_kn, Int64_1d N_k, Int64_1d s_n).
Proof.
  destruct u_kn as [[n_states n_samples] u]. simpl.
  intros HN Hsum Hrange HK Hfresh.
  assert (Hpos : Forall (Z.le 0) N_k).
  { eapply Forall_impl; [exact Hrange|]. simpl. lia. }
  assert (H64 : Forall in_int64 N_k).
  { eapply Forall_impl; [exact Hrange|]. unfold in_int64. simpl. lia. }
  assert (Hs64 : Forall in_int64 (blocks 0 N_k)).
  { eapply Forall_impl; [apply blocks_bounds|]. unfold in_int64. simpl. lia. }
  exists (<[hdf_filename name :=
             <["s_n" := Int64_1d (blocks 0 N_k)]> (<["N_k" := Int64_1d N_k]>
               (<["u_kn" := Float64_2d (MkArray2d (n_states, n_samples) u)]>
                  (tables_open_append fs (hdf_filename name))))]> fs), (blocks 0 N_k).
  split; [|split; [by apply get_sn_blocks|]].
  - unfold save, ensure_type_float_2d, ensure_type_int64_1d. simpl.
    destruct (decide ((n_states, n_samples) = (n_states, n_samples))); [|done].
    simpl. rewrite (proj2 (Z.eqb_eq _ _) HN). simpl.
    rewrite (to_int64_fmap_id N_k H64), (get_sn_blocks N_k Hpos). simpl.
    rewrite length_blocks, Hsum by done. rewrite Z.eqb_refl. simpl.
    rewrite (to_int64_fmap_id _ Hs64).
    set (f0 := tables_open_append fs (hdf_filename name)).
    assert (Hf0 : f0 !! "u_kn" = None ∧ f0 !! "N_k" = None ∧ f0 !! "s_n" = None).
    { unfold f0, tables_open_append.
      destruct (fs !! hdf_filename name) as [f|] eqn:Hf; simpl; [by apply Hfresh|].
      by rewrite !lookup_empty. }
    destruct Hf0 as (Hu & Hn & Hsn).
    unfold createCArray. simpl. rewrite Hu. simpl.
    rewrite lookup_insert_ne, Hn by done. simpl.
    rewrite !lookup_insert_ne, Hsn by done. simpl. done.
  - unfold load_from_hdf, tables_open_read. rewrite lookup_insert_eq. simpl.
    unfold read_node.
    repeat (rewrite lookup_insert_eq || rewrite lookup_insert_ne by done).
    done.
Qed.

Lemma save_without_states_then_load_witness :
  ∃ fs' s_n,
    save ∅ "gas" (MkArray2d (2, 3) [1; 2; 3; 4; 5; 6]%float) [1; 2] None = inr fs' ∧
    get_sn [1; 2] = inr s_n ∧
    load_from_hdf fs' (hdf_filename "gas")
    = inr (Float64_2d (MkArray2d (2, 3) [1; 2; 3; 4; 5; 6]%float),
           Int64_1d [1; 2], Int64_1d s_n).
Proof.
  apply (save_without_states_then_load ∅ "gas"
           (MkArray2d (2, 3) [1; 2; 3; 4; 5; 6]%float) [1; 2]).
  - reflexivity.
  - reflexivity.
  - repeat constructor; lia.
  - simpl. lia.
  - intros f Hf. by rewrite lookup_empty in Hf.
Defined.

(** ** Reading and writing an array through an index array *)

Lemma where_from_ge (k : nat) (c : list bool) :
  Forall (λ j, k ≤ j)%nat (where_from k c).
Proof.
  apply Forall_forall. intros j Hj. by apply elem_of_where_from in Hj as [? _].
Qed.

Lemma NoDup_where_from (k : nat) (c : list bool) : NoDup (where_from k c).
Proof.
  revert k. induction c as [|b c IH]; intros k; simpl; [constructor|].
  destruct b; [|apply IH]. constructor; [|apply IH].
  intros Hin. pose proof (where_from_ge (S k) c) as Hge.
  eapply Forall_forall in Hge; [|exact Hin]. simpl in Hge. lia.
Qed.

Section IndexArraysValues.
Context {T : Type}.

Lemma np_take_spec (a : list T) (idx : list nat) :
  Forall (λ k, k < length a)%nat idx →
  ∃ vs, np_take a idx = inr vs ∧ Forall2 (λ k v, a !! k = Some v) idx vs.
Proof.
  induction 1 as [|k idx Hk _ (vs & Hvs & Hall)]; simpl.
  { exists []. split; [done|constructor]. }
  destruct (lookup_lt_is_Some_2 a k Hk) as [v Hv].
  rewrite (np_get_in_range a (Z.of_nat k) v) by (rewrite ?Nat2Z.id; done || lia).
  simpl. rewrite Hvs. simpl. exists (v :: vs). split; [done|]. by constructor.
Qed.

Lemma np_put_spec (a : list T) (idx : list nat) (vals : list T) :
  Forall (λ k, k < length a)%nat idx → length vals = length idx → NoDup idx →
  ∃ a', np_put a idx vals = inr a' ∧ length a' = length a ∧
        (∀ j, j ∉ idx → a' !! j = a !! j) ∧
        Forall2 (λ k v, a' !! k = Some v) idx vals.
Proof.
  intros Hidx. revert a vals Hidx.
  induction idx as [|k idx IH]; intros a [|v vals] Hidx Hlen Hnd; simpl in *; try done.
  { exists a. split; [done|]. split; [done|]. split; [done|constructor]. }
  apply Forall_cons in Hidx as [Hk Hidx]. apply NoDup_cons in Hnd as [Hk' Hnd].
  rewrite np_set_in_range by lia. simpl. rewrite Nat2Z.id.
  destruct (IH (<[k:=v]> a) vals) as (a' & Ha' & Hlen' & Hout & Hin).
  { by rewrite length_insert. }
  { lia. }
  { done. }
  exists a'. split; [done|]. rewrite Hlen', length_insert. split; [done|]. split.
  - intros j Hj. apply not_elem_of_cons in Hj as [Hjk Hj].
    rewrite (Hout j Hj). by apply list_lookup_insert_ne.
  - constructor; [|done]. rewrite (Hout k Hk'). by apply list_lookup_insert_eq.
Qed.

Lemma lookups_agree (a : list T) (idx : list nat) (l1 l2 : list T) :
  Forall2 (λ k v, a !! k = Some v) idx l1 →
  Forall2 (λ k v, a !! k = Some v) idx l2 → l1 = l2.
Proof.
  intros H1. revert l2. induction H1 as [|k v idx l1 Hv _ IH]; intros l2 H2.
  - by apply Forall2_nil_inv_l in H2.
  - apply Forall2_cons_inv_l in H2 as (v' & l2' & Hv' & H2 & ->).
    rewrite Hv in Hv'. injection Hv' as <-. f_equal. by apply IH.
Qed.
End IndexArraysValues.

(** ** A state without samples, on the machine *)

(** A product with NaN is NaN. *)
Lemma mul_nan_r (x : float) : (x * nan)%float = nan.
Proof.
  rewrite <- (SF2Prim_Prim2SF (x * nan)), mul_spec.
  replace (Prim2SF nan) with S754_nan by reflexivity.
  by destruct (Prim2SF x).
Qed.

Lemma np_sum_binary64_zeros (n : nat) :
  np_sum binary64 (replicate n 0%float) = 0%float.
Proof.
  unfold np_sum. change (zero binary64) with 0%float.
  change (add binary64) with PrimFloat.add.
  induction n as [|n IH]; [done|]. simpl.
  by replace (0 + 0)%float with 0%float by reflexivity.
Qed.

(** For a state with no raw sample, in binary64 and whatever the C library
    computes: the check raises nothing, every observed count and their sum
    [N] are [0.0] (zeros add up to [0.0] in whatever order they are added),
    and every reported uncertainty is NaN (from [0.0 / 0.0]), not [0.0]. *)
Theorem empty_state_uncertainties_are_nan (e l0 : float → float) (NBINS : Z)
    (bin_kt : list (list Z)) (T_k : list Z) (g_k : list float) (l : Z)
    (f_i : list float) (g : float) :
  0 ≤ NBINS → 0 ≤ l → f_i ≠ [] →
  T_k !! Z.to_nat l = Some 0 →
  g_k !! Z.to_nat l = Some g →
  ∃ h, compare_histograms binary64 (binary64_libm e l0) NBINS bin_kt T_k
         (fl g_k) l (fl f_i) = inr h ∧
    N_total h = 0%float ∧
    N_i_observed h = fl (replicate (Z.to_nat NBINS) 0%float) ∧
    dN_i_observed h = fl (replicate (Z.to_nat NBINS) nan).
Proof.
  intros HNBINS Hl Hne HT Hg. unfold fl.
  destruct (uncertainty_loop_any binary64 (binary64_libm e l0) NBINS g_k l g
              HNBINS Hl Hg (replicate (Z.to_nat NBINS) 0%float) 0%float)
    as (dN_i & HdN & HlenD & Hunc); [by rewrite length_replicate|].
  unfold compare_histograms, bin_probabilities, np_zeros.
  destruct f_i as [|f0 f']; [done|].
  cbn [np_min mbind exc_bind mret exc_ret].
  rewrite (proj2 (Z.ltb_ge NBINS 0)) by lia.
  cbn [mbind exc_bind mret exc_ret].
  rewrite (np_get_in_range T_k l 0 Hl HT).
  cbn [mbind exc_bind mret exc_ret].
  change (zero binary64) with 0%float.
  change (py_range 0) with (@nil Z). cbn [for_each mbind exc_bind mret exc_ret].
  rewrite np_sum_binary64_zeros.
  change (zero binary64) with 0%float in HdN.
  change (num binary64) with float in *. rewrite HdN.
  cbn [mbind exc_bind mret exc_ret].
  eexists. split; [reflexivity|].
  cbn [N_total N_i_observed dN_i_observed].
  split; [done|]. split; [done|].
  apply list_eq. intros i.
  destruct (decide (i < Z.to_nat NBINS)%nat) as [Hi|Hi].
  - rewrite (lookup_replicate_2 _ _ _ Hi).
    pose proof (Hunc (Z.of_nat i) 0%float ltac:(lia)) as Hu.
    rewrite Nat2Z.id in Hu. rewrite Hu by (by apply lookup_replicate_2).
    f_equal.
    change (np_sqrt (binary64_libm e l0)) with PrimFloat.sqrt.
    change (mul binary64) with PrimFloat.mul.
    change (sub binary64) with PrimFloat.sub.
    change (div binary64) with PrimFloat.div.
    change (one binary64) with 1%float.
    replace (1 - 0 / 0)%float with nan by reflexivity.
    rewrite mul_nan_r. reflexivity.
  - rewrite (lookup_ge_None_2 dN_i) by lia.
    symmetry. apply lookup_ge_None_2. rewrite length_replicate. lia.
Qed.

Lemma empty_state_uncertainties_are_nan_witness :
  ∃ h, compare_histograms binary64 (binary64_libm (λ x, x) (λ x, x)) 2 [[]] [0]
         (fl [2]%float) 0 (fl [0; 0]%float) = inr h ∧
    N_total h = 0%float ∧
    N_i_observed h = fl (replicate (Z.to_nat 2) 0%float) ∧
    dN_i_observed h = fl (replicate (Z.to_nat 2) nan).
Proof.
  apply (empty_state_uncertainties_are_nan (λ x, x) (λ x, x) 2 [[]] [0]
           [2]%float 0 [0; 0]%float 2%float); try done.
Defined.

(** ** [main]: pooling the trajectories, binning, and the bins of each
      trajectory (lines 155-167) *)

Lemma np_fill_slice_prefix {T : Type} (n : Z) (v0 v : T) (j : Z) :
  0 ≤ j ≤ n →
  np_fill_slice (replicate (Z.to_nat n) v0) 0 j v
  = replicate (Z.to_nat j) v ++ replicate (Z.to_nat (n - j)) v0.
Proof.
  intros Hj. unfold np_fill_slice, slice_bound. rewrite length_replicate.
  change (0 <? 0) with false. cbn beta iota.
  rewrite (proj2 (Z.ltb_ge j 0)) by lia.
  rewrite Z.min_l, Z.min_l by lia. change (Z.to_nat 0) with 0%nat.
  rewrite take_0, Nat.sub_0_r, Nat.max_0_l, drop_replicate. simpl.
  do 2 f_equal. lia.
Qed.

Lemma mask_rows_spec (T_max : Z) (T_k : list Z) :
  Forall (λ T, 0 ≤ T ≤ T_max) T_k →
  mask_rows (Z.of_nat (length T_k)) T_k
    (replicate (length T_k) (replicate (Z.to_nat T_max) false))
  = inr (mask_row T_max <$> T_k).
Proof.
  intros HT. unfold mask_rows.
  set (z := replicate (Z.to_nat T_max) false).
  match goal with |- for_each ?b ?s ?l = _ =>
    destruct (for_each_range b
      (λ i mask, mask = (mask_row T_max <$> take (Z.to_nat i) T_k)
                        ++ replicate (length T_k - Z.to_nat i) z)
      s (Z.of_nat (length T_k))) as (mask & Hmask & HI)
  end.
  - simpl. by rewrite Nat.sub_0_r.
  - intros i mask Hi ->.
    destruct (lookup_lt_is_Some_2 T_k (Z.to_nat i)) as [T HTi]; [lia|].
    assert (Hlen : length (mask_row T_max <$> take (Z.to_nat i) T_k) = Z.to_nat i).
    { rewrite length_fmap, length_take. lia. }
    rewrite (np_get_in_range _ i z) by
      (try lia; rewrite lookup_app_r by lia; apply lookup_replicate_2; lia).
    simpl. rewrite (np_get_in_range T_k i T) by (done || lia). simpl.
    rewrite np_set_in_range by (rewrite length_app, length_replicate; lia).
    eexists. split; [done|].
    replace (Z.to_nat (i + 1)) with (S (Z.to_nat i)) by lia.
    rewrite (take_S_r _ _ _ HTi), fmap_app, <- app_assoc. simpl.
    rewrite insert_app_r_alt by lia. rewrite Hlen, Nat.sub_diag. f_equal.
    replace (length T_k - Z.to_nat i)%nat with (S (length T_k - S (Z.to_nat i))) by lia.
    simpl. f_equal. unfold z. rewrite np_fill_slice_prefix; [done|].
    eapply Forall_lookup_1 in HTi; [|exact HT]. done.
  - rewrite Hmask. f_equal. rewrite HI, Z.max_l, Nat2Z.id by lia.
    rewrite take_ge, Nat.sub_diag by lia. simpl. by rewrite app_nil_r.
Qed.

Lemma where_from_false (k n : nat) : where_from k (replicate n false) = [].
Proof. revert k. induction n as [|n IH]; intros k; simpl; [done|]. apply IH. Qed.

Lemma where_from_mask_row (k : nat) (T_max T : Z) :
  where_from k (mask_row T_max T) = seq k (Z.to_nat T).
Proof.
  unfold mask_row. revert k. induction (Z.to_nat T) as [|n IH]; intros k; simpl.
  - apply where_from_false.
  - by rewrite IH.
Qed.

Lemma where2_from_mask (k0 : nat) (T_max : Z) (T_k : list Z) :
  where2_from k0 (mask_row T_max <$> T_k) = pool_from k0 T_k.
Proof.
  revert k0. induction T_k as [|T l IH]; intros k0; simpl; [done|].
  unfold np_where. by rewrite where_from_mask_row, IH.
Qed.

Lemma length_pool_from (k0 : nat) (T_k : list Z) :
  Forall (Z.le 0) T_k → Z.of_nat (length (pool_from k0 T_k)) = py_sum T_k.
Proof.
  intros H. revert k0. induction H as [|T l HT _ IH]; intros k0; simpl; [done|].
  rewrite length_app, length_fmap, length_seq, py_sum_cons, Nat2Z.inj_add, IH. lia.
Qed.

Lemma pool_from_lookup (k0 : nat) (T_k : list Z) (k : nat) (T t : Z) :
  Forall (Z.le 0) T_k → T_k !! k = Some T → 0 ≤ t < T →
  pool_from k0 T_k !! Z.to_nat (prefix_sum T_k k + t)
  = Some ((k0 + k)%nat, Z.to_nat t).
Proof.
  intros Hpos. revert k0 k.
  induction Hpos as [|T0 l HT0 Hl IH]; intros k0 k Hk Ht; [done|].
  destruct k as [|k]; simpl in Hk.
  - injection Hk as ->. unfold prefix_sum. rewrite take_0.
    change (py_sum []) with 0. simpl.
    rewrite lookup_app_l by (rewrite length_fmap, length_seq; lia).
    rewrite list_lookup_fmap, lookup_seq_lt by lia. simpl.
    by rewrite Nat.add_0_r.
  - rewrite prefix_sum_cons_S. simpl.
    pose proof (prefix_sum_le l k Hl) as Hle.
    rewrite lookup_app_r by (rewrite length_fmap, length_seq; lia).
    rewrite length_fmap, length_seq.
    replace (Z.to_nat (T0 + prefix_sum l k + t) - Z.to_nat T0)%nat
      with (Z.to_nat (prefix_sum l k + t)) by lia.
    rewrite (IH (S k0) k Hk Ht). do 2 f_equal. lia.
Qed.

Lemma elem_of_pool_from (k0 : nat) (T_k : list Z) (k t : nat) :
  (k, t) ∈ pool_from k0 T_k →
  (k0 ≤ k)%nat ∧ ∃ T, T_k !! (k - k0)%nat = Some T ∧ Z.of_nat t < T.
Proof.
  revert k0. induction T_k as [|T0 l IH]; intros k0 Hin; simpl in Hin.
  { by apply elem_of_nil in Hin. }
  apply elem_of_app in Hin as [Hin|Hin].
  - apply list_elem_of_fmap in Hin as (t' & [= -> ->] & Ht').
    apply elem_of_seq in Ht'. split; [done|]. exists T0.
    rewrite Nat.sub_diag. split; [done|]. lia.
  - destruct (IH (S k0) Hin) as (Hle & T & HT & Ht). split; [lia|].
    exists T. split; [|done].
    replace (k - k0)%nat with (S (k - S k0)) by lia. done.
Qed.

Lemma NoDup_pool_from (k0 : nat) (T_k : list Z) : NoDup (pool_from k0 T_k).
Proof.
  revert k0. induction T_k as [|T0 l IH]; intros k0; simpl; [constructor|].
  apply NoDup_app. split; [|split; [|apply IH]].
  - apply NoDup_fmap_2; [|apply NoDup_seq]. intros t1 t2 [= ->]. done.
  - intros [k t] Hin Hin'. apply list_elem_of_fmap in Hin as (t' & [= -> ->] & _).
    apply elem_of_pool_from in Hin' as [Hle _]. lia.
Qed.

Section Arrays2DFacts.
Context {T : Type}.

Lemma lookup2_Some (a : list (list T)) (k t : nat) (v : T) :
  lookup2 a k t = Some v ↔ ∃ row, a !! k = Some row ∧ row !! t = Some v.
Proof.
  unfold lookup2. destruct (a !! k) as [row|]; simpl.
  - split; [by exists row|]. by intros (row' & [= <-] & ?).
  - split; [done|]. by intros (? & ? & _).
Qed.

Lemma lookup2_set (a : list (list T)) (k t : nat) (row : list T) (x : T)
    (k' t' : nat) :
  a !! k = Some row → (t < length row)%nat →
  lookup2 (<[k := <[t := x]> row]> a) k' t'
  = if decide (k' = k ∧ t' = t) then Some x else lookup2 a k' t'.
Proof.
  intros Hrow Ht. apply lookup_lt_Some in Hrow as Hk. unfold lookup2.
  destruct (decide (k' = k)) as [->|Hne].
  - rewrite list_lookup_insert_eq by done. rewrite Hrow. simpl.
    destruct (decide (t' = t)) as [->|Hne'].
    + rewrite list_lookup_insert_eq by done. by rewrite decide_True.
    + rewrite list_lookup_insert_ne by done. rewrite decide_False; [done|].
      by intros [_ ?].
  - rewrite list_lookup_insert_ne by done. rewrite decide_False; [done|].
    by intros [? _].
Qed.

Lemma np_take2_spec (a : list (list T)) (idx : list (nat * nat)) :
  Forall (λ p, is_Some (lookup2 a p.1 p.2)) idx →
  ∃ vs, np_take2 a idx = inr vs ∧
        Forall2 (λ p v, lookup2 a p.1 p.2 = Some v) idx vs.
Proof.
  induction 1 as [|[k t] idx [v Hv] _ (vs & Hvs & Hall)]; simpl in *.
  { exists []. split; [done|constructor]. }
  apply lookup2_Some in Hv as Hv'. destruct Hv' as (row & Hrow & Ht).
  rewrite (np_get_in_range a (Z.of_nat k) row) by (rewrite ?Nat2Z.id; done || lia).
  simpl.
  rewrite (np_get_in_range row (Z.of_nat t) v) by (rewrite ?Nat2Z.id; done || lia).
  simpl. rewrite Hvs. simpl. exists (v :: vs). split; [done|]. by constructor.
Qed.

End Arrays2DFacts.

(** ** [main] with no snapshot at all *)

Lemma pool_from_zeros (k0 : nat) (T_k : list Z) :
  Forall (λ T, T = 0) T_k → pool_from k0 T_k = [].
Proof.
  intros H. revert k0. induction H as [|T l -> _ IH]; intros k0; simpl; [done|].
  apply IH.
Qed.

(** When no trajectory holds a snapshot, in every arithmetic and whatever
    [T_max] and the number of bins are: lines 155-167 raise [ValueError].
    With a [T_max] and a number of bins that are not negative it is the
    error numpy raises for the minimum of the empty pooled array. *)
Theorem no_snapshot_raises (A : Arith) (x_kt : list (list (num A)))
    (T_k : list Z) (T_max NBINS : Z) :
  Forall (λ T, T = 0) T_k →
  bin_trajectories A x_kt T_k (Z.of_nat (length T_k)) T_max NBINS
  = inl ValueError.
Proof.
  intros HT. unfold bin_trajectories, np_full2.
  rewrite (proj2 (Z.ltb_ge _ 0)) by lia.
  destruct (Z.ltb_spec T_max 0) as [Hneg|HTmax]; [done|]. simpl.
  assert (HT' : Forall (λ T, 0 ≤ T ≤ T_max) T_k).
  { eapply Forall_impl; [exact HT|]. simpl. lia. }
  rewrite Nat2Z.id, (mask_rows_spec T_max T_k HT'). simpl.
  unfold np_where2. rewrite where2_from_mask, (pool_from_zeros 0 T_k HT). simpl.
  unfold construct_nonuniform_bins, np_zeros. simpl.
  destruct (Z.ltb_spec (NBINS + 1) 0); [done|]. simpl.
  by destruct (Z.ltb_spec NBINS 0).
Qed.

Lemma no_snapshot_raises_witness :
  bin_trajectories binary64 (fl [0; 0]%float :: fl [0; 0]%float :: []) [0; 0]
    (Z.of_nat (length [0; 0])) 2 50 = inl ValueError.
Proof.
  apply (no_snapshot_raises binary64 (fl [0; 0]%float :: fl [0; 0]%float :: [])
           [0; 0] 2 50). repeat constructor.
Defined.

(** ** The bins in every arithmetic *)

Lemma bind_inr {X Y : Type} (m : exc X) (f : X → exc Y) (y : Y) :
  m ≫= f = inr y → ∃ x, m = inr x ∧ f x = inr y.
Proof. destruct m as [e|x]; simpl; [done|]. by exists x. Qed.

(** What a loop over [range(n)] that returns has kept. *)
Lemma for_each_keeps_from {St : Type} (body : St → Z → exc St)
    (Inv : Z → St → Prop) (k : nat) :
  ∀ (m : Z) (s s' : St),
    for_each body s (seqZ m (Z.of_nat k)) = inr s' →
    Inv m s →
    (∀ i s s1, m ≤ i < m + Z.of_nat k → Inv i s → body s i = inr s1 →
               Inv (i + 1) s1) →
    Inv (m + Z.of_nat k) s'.
Proof.
  induction k as [|k IH]; intros m s s' Hrun H0 Hstep.
  - simpl in Hrun. injection Hrun as <-. by rewrite Z.add_0_r.
  - rewrite seqZ_cons in Hrun by lia.
    replace (Z.pred (Z.of_nat (S k))) with (Z.of_nat k) in Hrun by lia.
    simpl in Hrun. apply bind_inr in Hrun as (s1 & Hs1 & Hrun).
    replace (m + Z.of_nat (S k)) with (Z.succ m + Z.of_nat k) by lia.
    apply (IH (Z.succ m) s1 s' Hrun).
    + replace (Z.succ m) with (m + 1) by lia. apply (Hstep m s s1); [lia|done..].
    + intros i t t1 Hi. apply Hstep. lia.
Qed.

Lemma for_each_range_keeps {St : Type} (body : St → Z → exc St)
    (Inv : Z → St → Prop) (s0 s' : St) (n : Z) :
  0 ≤ n →
  for_each body s0 (py_range n) = inr s' →
  Inv 0 s0 →
  (∀ i s s1, 0 ≤ i < n → Inv i s → body s i = inr s1 → Inv (i + 1) s1) →
  Inv n s'.
Proof.
  intros Hn Hrun H0 Hstep. unfold py_range in Hrun.
  replace n with (Z.of_nat (Z.to_nat n)) in Hrun by lia.
  pose proof (for_each_keeps_from body Inv (Z.to_nat n) 0 s0 s' Hrun H0) as H.
  replace (0 + Z.of_nat (Z.to_nat n)) with n in H by lia.
  apply H. intros i s s1 Hi. apply Hstep. lia.
Qed.

Section ArraysReturned.
Context {T : Type}.

Lemma np_index_inr (len : nat) (i : Z) (k : nat) :
  np_index len i = inr k → (k < len)%nat ∧ (0 ≤ i → k = Z.to_nat i).
Proof.
  unfold np_index.
  destruct (Z.leb_spec 0 i), (Z.ltb_spec i (Z.of_nat len)); simpl;
    try (intros [= <-]; split; lia).
  all: destruct (Z.leb_spec (- Z.of_nat len) i), (Z.ltb_spec i 0); simpl;
    try done; intros [= <-]; split; lia.
Qed.

Lemma np_get_inr (a : list T) (i : Z) (v : T) :
  np_get a i = inr v → ∃ k, a !! k = Some v ∧ (0 ≤ i → k = Z.to_nat i).
Proof.
  unfold np_get. intros H. apply bind_inr in H as (k & Hk & H).
  apply np_index_inr in Hk as [_ Hk].
  destruct (a !! k) as [x|] eqn:Hx; [|done]. injection H as <-. by exists k.
Qed.

Lemma np_set_inr (a a' : list T) (i : Z) (v : T) :
  np_set a i v = inr a' →
  ∃ k, (k < length a)%nat ∧ a' = <[k:=v]> a ∧ (0 ≤ i → k = Z.to_nat i).
Proof.
  unfold np_set. intros H. apply bind_inr in H as (k & Hk & H).
  apply np_index_inr in Hk as [Hlt Hk]. injection H as <-. by exists k.
Qed.

Lemma np_set_many_inr (idx : list nat) (v : T) :
  ∀ a a' : list T, np_set_many a idx v = inr a' →
    length a' = length a ∧
    ∀ k x, a' !! k = Some x → x = v ∨ a !! k = Some x.
Proof.
  unfold np_set_many. induction idx as [|j idx IH]; intros a a' H; simpl in H.
  - injection H as <-. split; [done|]. intros k x Hx. by right.
  - apply bind_inr in H as (a1 & H1 & H).
    apply np_set_inr in H1 as (k1 & Hk1 & -> & _).
    destruct (IH _ _ H) as [Hlen Hval]. rewrite length_insert in Hlen.
    split; [done|]. intros k x Hx. destruct (Hval k x Hx) as [->|Hold]; [by left|].
    destruct (decide (k = k1)) as [->|Hne].
    + rewrite list_lookup_insert_eq in Hold by done. injection Hold as <-. by left.
    + rewrite list_lookup_insert_ne in Hold by done. by right.
Qed.
End ArraysReturned.

(** In every arithmetic, rounding or not, what [construct_nonuniform_bins]
    returns is well formed: [nbins + 1] boundaries, [nbins] centres and
    widths, one assignment for each sample; every assignment is the [0.0]
    that [np.zeros] left or the number of a bin in [0, nbins) as a float, so
    it never names a bin that does not exist; every left boundary but the
    last is one of the samples, the last is the padded maximum; and centre
    and width of a bin are the midpoint and the difference of its two
    boundaries as that arithmetic computes them. *)
Theorem bins_well_formed_in_every_arithmetic (A : Arith) (x_n : list (num A))
    (nbins : Z) (res : bins A) :
  construct_nonuniform_bins A x_n nbins = inr res →
  0 ≤ nbins ∧
  length (bin_left_boundary_i res) = Z.to_nat (nbins + 1) ∧
  length (bin_center_i res) = Z.to_nat nbins ∧
  length (bin_width_i res) = Z.to_nat nbins ∧
  length (bin_n res) = length x_n ∧
  Forall (λ v, v = zero A ∨ ∃ i, 0 ≤ i < nbins ∧ of_int A i = inr v) (bin_n res) ∧
  (∀ i, 0 ≤ i < nbins →
     ∃ x, bin_left_boundary_i res !! Z.to_nat i = Some x ∧ x ∈ x_n) ∧
  (∃ m M, np_min A x_n = inr m ∧ np_max A x_n = inr M ∧
     bin_left_boundary_i res !! Z.to_nat nbins
     = Some (add A M (mul A (sub A M m) (eps A)))) ∧
  (∀ i, 0 ≤ i < nbins →
     ∃ l r, bin_left_boundary_i res !! Z.to_nat i = Some l ∧
            bin_left_boundary_i res !! Z.to_nat (i + 1) = Some r ∧
            bin_center_i res !! Z.to_nat i = Some (div A (add A l r) (two A)) ∧
            bin_width_i res !! Z.to_nat i = Some (sub A r l)).
Proof.
  unfold construct_nonuniform_bins, np_zeros. intros H.
  destruct (Z.ltb_spec (nbins + 1) 0) as [?|_]; [done|]. simpl in H.
  destruct (Z.ltb_spec nbins 0) as [?|Hn]; [done|]. simpl in H.
  destruct (Z.ltb_spec (Z.of_nat (length x_n)) 0) as [?|_]; [lia|]. simpl in H.
  apply bind_inr in H as (m & Hm & H). apply bind_inr in H as (M & HM & H).
  apply bind_inr in H as ([left_i assigned] & Hloop1 & H).
  apply bind_inr in H as (left_f & Hlast & H).
  apply bind_inr in H as ([centers widths] & Hloop2 & H).
  injection H as <-. cbn [bin_left_boundary_i bin_center_i bin_width_i bin_n].
  rewrite Nat2Z.id in Hloop1.
  (* the first loop *)
  pose (ok := λ v : num A, v = zero A ∨ ∃ i, 0 ≤ i < nbins ∧ of_int A i = inr v).
  pose (Inv1 := λ (i : Z) (st : list (num A) * list (num A)),
          length st.1 = Z.to_nat (nbins + 1) ∧ length st.2 = length x_n ∧
          Forall ok st.2 ∧
          ∀ j, 0 ≤ j < i → ∃ x, st.1 !! Z.to_nat j = Some x ∧ x ∈ x_n).
  assert (H1 : Inv1 nbins (left_i, assigned)).
  { apply (for_each_range_keeps _ Inv1 _ _ nbins Hn Hloop1).
    - unfold Inv1. simpl. rewrite !length_replicate.
      split; [done|]. split; [done|]. split; [|lia].
      apply Forall_replicate. by left.
    - intros i [lft asg] st1 Hi (Hl & Ha & Hok & Hleft) Hbody. simpl in *.
      unfold assign_span in Hbody. simpl in Hbody.
      apply bind_inr in Hbody as (first & _ & Hbody).
      apply bind_inr in Hbody as (last & _ & Hbody).
      apply bind_inr in Hbody as (k & _ & Hbody).
      apply bind_inr in Hbody as (x & Hx & Hbody).
      apply bind_inr in Hbody as (lft1 & Hset & Hbody).
      apply bind_inr in Hbody as (b & Hb & Hbody).
      apply bind_inr in Hbody as (asg1 & Hmany & Hbody).
      injection Hbody as <-.
      apply np_get_inr in Hx as (kx & Hx & _).
      apply np_set_inr in Hset as (ki & Hki & -> & Hkieq).
      specialize (Hkieq ltac:(lia)). subst ki.
      apply np_set_many_inr in Hmany as [Hlen' Hval].
      unfold Inv1. simpl. rewrite length_insert.
      split; [done|]. split; [lia|]. split.
      + apply Forall_lookup. intros j v Hv.
        destruct (Hval j v Hv) as [->|Hold].
        * right. by exists i.
        * by apply (Forall_lookup_1 _ _ _ _ Hok Hold).
      + intros j Hj. destruct (decide (j = i)) as [->|Hne].
        * exists x. rewrite list_lookup_insert_eq by done.
          split; [done|]. by apply (list_elem_of_lookup_2 _ kx).
        * rewrite list_lookup_insert_ne by lia. apply Hleft. lia. }
  destruct H1 as (Hl & Ha & Hok & Hleft). simpl in Hl, Ha, Hok, Hleft.
  apply np_set_inr in Hlast as (kl & Hkl & -> & Hkleq).
  specialize (Hkleq Hn). subst kl.
  (* the second loop *)
  set (left_f := <[Z.to_nat nbins := add A M (mul A (sub A M m) (eps A))]> left_i) in *.
  pose (Inv2 := λ (i : Z) (st : list (num A) * list (num A)),
          length st.1 = Z.to_nat nbins ∧ length st.2 = Z.to_nat nbins ∧
          ∀ j, 0 ≤ j < i →
            ∃ l r, left_f !! Z.to_nat j = Some l ∧
                   left_f !! Z.to_nat (j + 1) = Some r ∧
                   st.1 !! Z.to_nat j = Some (div A (add A l r) (two A)) ∧
                   st.2 !! Z.to_nat j = Some (sub A r l)).
  assert (H2 : Inv2 nbins (centers, widths)).
  { apply (for_each_range_keeps _ Inv2 _ _ nbins Hn Hloop2).
    - unfold Inv2. simpl. rewrite !length_replicate.
      split; [done|]. split; [done|]. lia.
    - intros i [cs ws] st1 Hi (Hc & Hw & Hprev) Hbody. simpl in *.
      unfold center_width in Hbody. simpl in Hbody.
      apply bind_inr in Hbody as (l & Hgl & Hbody).
      apply bind_inr in Hbody as (r & Hgr & Hbody).
      apply bind_inr in Hbody as (cs1 & Hsc & Hbody).
      apply bind_inr in Hbody as (r' & Hgr' & Hbody).
      apply bind_inr in Hbody as (l' & Hgl' & Hbody).
      apply bind_inr in Hbody as (ws1 & Hsw & Hbody).
      injection Hbody as <-.
      apply np_get_inr in Hgl as (k1 & Hgl & Hk1). specialize (Hk1 ltac:(lia)). subst k1.
      apply np_get_inr in Hgr as (k2 & Hgr & Hk2). specialize (Hk2 ltac:(lia)). subst k2.
      apply np_get_inr in Hgl' as (k3 & Hgl' & Hk3). specialize (Hk3 ltac:(lia)). subst k3.
      apply np_get_inr in Hgr' as (k4 & Hgr' & Hk4). specialize (Hk4 ltac:(lia)). subst k4.
      rewrite Hgl in Hgl'. injection Hgl' as <-.
      rewrite Hgr in Hgr'. injection Hgr' as <-.
      apply np_set_inr in Hsc as (kc & Hkc & -> & Hkceq).
      specialize (Hkceq ltac:(lia)). subst kc.
      apply np_set_inr in Hsw as (kw & Hkw & -> & Hkweq).
      specialize (Hkweq ltac:(lia)). subst kw.
      unfold Inv2. simpl. rewrite !length_insert.
      split; [done|]. split; [done|].
      intros j Hj. destruct (decide (j = i)) as [->|Hne].
      + exists l, r. rewrite !list_lookup_insert_eq by done. done.
      + rewrite !list_lookup_insert_ne by lia. apply Hprev. lia. }
  destruct H2 as (Hc & Hw & Hcw). simpl in Hc, Hw, Hcw.
  split; [done|]. split; [by unfold left_f; rewrite length_insert|].
  split; [done|]. split; [done|]. split; [done|]. split; [exact Hok|].
  split; [|split].
  - intros i Hi. destruct (Hleft i Hi) as (x & Hx & Hin). exists x.
    split; [|done]. unfold left_f. by rewrite list_lookup_insert_ne by lia.
  - exists m, M. split; [done|]. split; [done|].
    unfold left_f. by rewrite list_lookup_insert_eq by lia.
  - intros i Hi. destruct (Hcw i Hi) as (l & r & ? & ? & ? & ?). by exists l, r.
Qed.

Lemma bins_well_formed_in_every_arithmetic_witness :
  ∃ res : bins binary64,
    construct_nonuniform_bins binary64 (fl [3; 1; 2]%float) 2 = inr res ∧
    0 ≤ 2 ∧
    length (bin_left_boundary_i res) = Z.to_nat (2 + 1) ∧
    length (bin_center_i res) = Z.to_nat 2 ∧
    length (bin_width_i res) = Z.to_nat 2 ∧
    length (bin_n res) = length (fl [3; 1; 2]%float) ∧
    Forall (λ v, v = zero binary64 ∨
                 ∃ i, 0 ≤ i < 2 ∧ of_int binary64 i = inr v) (bin_n res) ∧
    (∀ i, 0 ≤ i < 2 →
       ∃ x, bin_left_boundary_i res !! Z.to_nat i = Some x ∧
            x ∈ fl [3; 1; 2]%float) ∧
    (∃ m M, np_min binary64 (fl [3; 1; 2]%float) = inr m ∧
       np_max binary64 (fl [3; 1; 2]%float) = inr M ∧
       bin_left_boundary_i res !! Z.to_nat 2
       = Some (add binary64 M (mul binary64 (sub binary64 M m) (eps binary64)))) ∧
    (∀ i, 0 ≤ i < 2 →
       ∃ l r, bin_left_boundary_i res !! Z.to_nat i = Some l ∧
              bin_left_boundary_i res !! Z.to_nat (i + 1) = Some r ∧
              bin_center_i res !! Z.to_nat i
              = Some (div binary64 (add binary64 l r) (two binary64)) ∧
              bin_width_i res !! Z.to_nat i = Some (sub binary64 r l)).
Proof.
  destruct (construct_nonuniform_bins binary64 (fl [3; 1; 2]%float) 2)
    as [e|res] eqn:H.
  - exfalso.
    assert (Hc : ∃ v, bin_n <$> construct_nonuniform_bins binary64
                                  (fl [3; 1; 2]%float) 2 = inr v)
      by (eexists; vm_compute; reflexivity).
    destruct Hc as [v Hc]. rewrite H in Hc. discriminate Hc.
  - exists res. split; [reflexivity|].
    exact (bins_well_formed_in_every_arithmetic binary64 (fl [3; 1; 2]%float) 2 res H).
Defined.

(** ** [int(float(i))] on the machine *)

Lemma digits2_pos_iter (k p : positive) :
  digits2_pos (Pos.iter xO p k) = (digits2_pos p + k)%positive.
Proof.
  induction k as [|k IH] using Pos.peano_ind.
  - simpl. by rewrite Pos.add_1_r.
  - rewrite Pos.iter_succ. simpl. by rewrite IH, Pos.add_succ_r.
Qed.

Lemma digits2_pos_lower (p : positive) :
  2 ^ (Z.pos (digits2_pos p) - 1) ≤ Z.pos p.
Proof.
  induction p as [p IH|p IH|]; simpl digits2_pos; [| |done].
  - rewrite Pos2Z.inj_succ.
    replace (Z.succ (Z.pos (digits2_pos p)) - 1)
      with (Z.succ (Z.pos (digits2_pos p) - 1)) by lia.
    rewrite Z.pow_succ_r by lia. lia.
  - rewrite Pos2Z.inj_succ.
    replace (Z.succ (Z.pos (digits2_pos p)) - 1)
      with (Z.succ (Z.pos (digits2_pos p) - 1)) by lia.
    rewrite Z.pow_succ_r by lia. lia.
Qed.

Lemma digits2_pos_small (p : positive) :
  Z.pos p < 2 ^ 53 → Z.pos (digits2_pos p) ≤ 53.
Proof.
  intros Hp. pose proof (digits2_pos_lower p) as Hl.
  destruct (Z.le_gt_cases (Z.pos (digits2_pos p)) 53) as [|Hgt]; [done|].
  assert (2 ^ 53 ≤ 2 ^ (Z.pos (digits2_pos p) - 1)) by (apply Z.pow_le_mono_r; lia).
  lia.
Qed.

(** A mantissa of 53 digits with an exponent in [-52, 0] is left as it is. *)
Lemma binary_round_aux_exact (m : positive) (e : Z) :
  digits2_pos m = 53%positive → -52 ≤ e ≤ 0 →
  binary_round_aux prec emax false (Z.pos m) e loc_Exact = S754_finite false m e.
Proof.
  intros Hd He. unfold binary_round_aux, shr_fexp, Zdigits2. rewrite Hd.
  assert (Hf : fexp prec emax (53 + e) - e = 0).
  { unfold fexp, SpecFloat.emin, prec, emax. lia. }
  rewrite Hf. cbn [shr shr_record_of_loc loc_of_shr_record round_nearest_even shr_m].
  unfold Zdigits2. rewrite Hd, Hf.
  cbn [shr shr_record_of_loc shr_m].
  rewrite (proj2 (Z.leb_le e (emax - prec))); [done|]. unfold emax, prec. lia.
Qed.

Lemma binary_normalize_small (p : positive) :
  Z.pos p < 2 ^ 53 →
  ∃ (m : positive) (e : Z),
    binary_normalize prec emax (Z.pos p) 0 false = S754_finite false m e ∧
    digits2_pos m = 53%positive ∧ -52 ≤ e ≤ 0 ∧
    Z.pos m = Z.pos p * 2 ^ (- e).
Proof.
  intros Hp. pose proof (digits2_pos_small p Hp) as Hd.
  unfold binary_normalize, binary_round.
  assert (Hf : fexp prec emax (Z.pos (digits2_pos p) + 0)
               = Z.pos (digits2_pos p) - 53).
  { unfold fexp, SpecFloat.emin, prec, emax. lia. }
  rewrite Hf. unfold shl_align.
  destruct (Z.pos (digits2_pos p) - 53 - 0) as [|k|k] eqn:Hk; [|lia|].
  - assert (Hd53 : digits2_pos p = 53%positive) by lia.
    exists p, 0. rewrite binary_round_aux_exact by (done || lia).
    split; [done|]. split; [done|]. split; [lia|]. simpl. lia.
  - assert (Hdk : (digits2_pos p + k)%positive = 53%positive) by lia.
    exists (Pos.iter xO p k), (Z.pos (digits2_pos p) - 53).
    rewrite binary_round_aux_exact by (rewrite ?digits2_pos_iter; done || lia).
    split; [done|]. split; [by rewrite digits2_pos_iter|]. split; [lia|].
    change (Pos.iter xO p k) with (shift_pos k p). rewrite shift_pos_correct.
    rewrite Z.pow_pos_fold.
    replace (- (Z.pos (digits2_pos p) - 53)) with (Z.pos k) by lia. lia.
Qed.

(** In binary64, [int(float(i))] is [i] for every [i] from [0] to [2^53]:
    the numbers of the bins come back from the float array unchanged. *)
Lemma int_of_float_of_Z (i : Z) (v : float) :
  0 ≤ i < 2 ^ 53 → float_of_Z i = inr v → int_of_float v = inr i.
Proof.
  intros Hi. unfold float_of_Z.
  destruct (is_infinity _); [done|]. intros [= <-].
  unfold int_of_float.
  destruct i as [|p|p]; [| |lia].
  - by rewrite Prim2SF_SF2Prim.
  - destruct (binary_normalize_small p ltac:(lia)) as (m & e & -> & Hd & He & Hm).
    rewrite Prim2SF_SF2Prim.
    + destruct (Z.leb_spec 0 e) as [H0|H0].
      * assert (e = 0) by lia. subst e. rewrite Z.shiftl_0_r.
        f_equal. change (2 ^ (- 0)) with 1 in Hm. lia.
      * rewrite Z.shiftr_div_pow2, Hm by lia.
        rewrite Z.div_mul; [done|]. apply Z.pow_nonzero; lia.
    + simpl. unfold bounded, canonical_mantissa. rewrite Hd.
      apply andb_true_iff. split.
      * apply Z.eqb_eq. unfold fexp, SpecFloat.emin, prec, emax. lia.
      * apply Z.leb_le. unfold emax, prec. lia.
Qed.

Lemma int_of_float_zero : int_of_float 0 = inr 0.
Proof. reflexivity. Qed.

(** ** Where the boundaries come from, in every arithmetic *)

(** What a call of [construct_nonuniform_bins] that returns has computed:
    the first loop, by its invariant. *)
Lemma construct_nonuniform_bins_returned (A : Arith) (x_n : list (num A))
    (nbins : Z) (res : bins A) :
  construct_nonuniform_bins A x_n nbins = inr res →
  0 ≤ nbins ∧
  length (bin_left_boundary_i res) = Z.to_nat (nbins + 1) ∧
  length (bin_n res) = length x_n ∧
  Forall (λ v, v = zero A ∨ ∃ i, 0 ≤ i < nbins ∧ of_int A i = inr v) (bin_n res) ∧
  (∀ i, 0 ≤ i < nbins →
     ∃ (first : Z) (k : nat) (x : num A),
       span_index A (Z.of_nat (length x_n)) nbins i = inr first ∧
       np_get (argsort A x_n) first = inr k ∧
       x_n !! k = Some x ∧
       bin_left_boundary_i res !! Z.to_nat i = Some x) ∧
  (∃ m M, np_min A x_n = inr m ∧ np_max A x_n = inr M ∧
     bin_left_boundary_i res !! Z.to_nat nbins
     = Some (add A M (mul A (sub A M m) (eps A)))).
Proof.
  unfold construct_nonuniform_bins, np_zeros. intros H.
  destruct (Z.ltb_spec (nbins + 1) 0) as [?|_]; [done|]. simpl in H.
  destruct (Z.ltb_spec nbins 0) as [?|Hn]; [done|]. simpl in H.
  destruct (Z.ltb_spec (Z.of_nat (length x_n)) 0) as [?|_]; [lia|]. simpl in H.
  apply bind_inr in H as (m & Hm & H). apply bind_inr in H as (M & HM & H).
  apply bind_inr in H as ([left_i assigned] & Hloop1 & H).
  apply bind_inr in H as (left_f & Hlast & H).
  apply bind_inr in H as ([centers widths] & _ & H).
  injection H as <-. cbn [bin_left_boundary_i bin_n].
  rewrite Nat2Z.id in Hloop1.
  pose (ok := λ v : num A, v = zero A ∨ ∃ i, 0 ≤ i < nbins ∧ of_int A i = inr v).
  pose (Inv1 := λ (i : Z) (st : list (num A) * list (num A)),
          length st.1 = Z.to_nat (nbins + 1) ∧ length st.2 = length x_n ∧
          Forall ok st.2 ∧
          ∀ j, 0 ≤ j < i →
            ∃ (first : Z) (k : nat) (x : num A),
              span_index A (Z.of_nat (length x_n)) nbins j = inr first ∧
              np_get (argsort A x_n) first = inr k ∧
              x_n !! k = Some x ∧
              st.1 !! Z.to_nat j = Some x).
  assert (H1 : Inv1 nbins (left_i, assigned)).
  { apply (for_each_range_keeps _ Inv1 _ _ nbins Hn Hloop1).
    - unfold Inv1. simpl. rewrite !length_replicate.
      split; [done|]. split; [done|]. split; [|lia].
      apply Forall_replicate. by left.
    - intros i [lft asg] st1 Hi (Hl & Ha & Hok & Hleft) Hbody. simpl in *.
      unfold assign_span in Hbody. simpl in Hbody.
      apply bind_inr in Hbody as (first & Hfirst & Hbody).
      apply bind_inr in Hbody as (last & _ & Hbody).
      apply bind_inr in Hbody as (k & Hk & Hbody).
      apply bind_inr in Hbody as (x & Hx & Hbody).
      apply bind_inr in Hbody as (lft1 & Hset & Hbody).
      apply bind_inr in Hbody as (b & Hb & Hbody).
      apply bind_inr in Hbody as (asg1 & Hmany & Hbody).
      injection Hbody as <-.
      apply np_get_inr in Hx as (kx & Hx & Hkx).
      specialize (Hkx ltac:(lia)). rewrite Nat2Z.id in Hkx. subst kx.
      apply np_set_inr in Hset as (ki & Hki & -> & Hkieq).
      specialize (Hkieq ltac:(lia)). subst ki.
      apply np_set_many_inr in Hmany as [Hlen' Hval].
      unfold Inv1. simpl. rewrite length_insert.
      split; [done|]. split; [lia|]. split.
      + apply Forall_lookup. intros j v Hv.
        destruct (Hval j v Hv) as [->|Hold].
        * right. by exists i.
        * by apply (Forall_lookup_1 _ _ _ _ Hok Hold).
      + intros j Hj. destruct (decide (j = i)) as [->|Hne].
        * exists first, k, x. rewrite list_lookup_insert_eq by done. done.
        * rewrite list_lookup_insert_ne by lia. apply Hleft. lia. }
  destruct H1 as (Hl & Ha & Hok & Hleft). simpl in Hl, Ha, Hok, Hleft.
  apply np_set_inr in Hlast as (kl & Hkl & -> & Hkleq).
  specialize (Hkleq Hn). subst kl.
  split; [done|]. split; [by rewrite length_insert|]. split; [done|].
  split; [exact Hok|]. split.
  - intros i Hi. destruct (Hleft i Hi) as (first & k & x & ? & ? & ? & ?).
    exists first, k, x. by rewrite list_lookup_insert_ne by lia.
  - exists m, M. by rewrite list_lookup_insert_eq by lia.
Qed.

(** More items than values they can take: two of them are the same. *)
Lemma repeated_item (l : list nat) :
  ¬ NoDup l → ∃ (i j : nat) (x : nat), (i < j)%nat ∧ l !! i = Some x ∧ l !! j = Some x.
Proof.
  induction l as [|x l IH]; intros Hnd; [destruct Hnd; constructor|].
  destruct (decide (x ∈ l)) as [Hin|Hout].
  - apply list_elem_of_lookup_1 in Hin as [j Hj].
    exists 0%nat, (S j), x. split; [lia|]. by split.
  - destruct IH as (i & j & y & Hij & Hi & Hj).
    { intros Hl. apply Hnd. by constructor. }
    exists (S i), (S j), y. split; [lia|]. by split.
Qed.

Lemma pigeonhole (l : list nat) (n : nat) :
  Forall (λ k, k < n)%nat l → (n < length l)%nat →
  ∃ (i j : nat) (x : nat), (i < j)%nat ∧ l !! i = Some x ∧ l !! j = Some x.
Proof.
  intros Hall Hlen. apply repeated_item. intros Hnd.
  assert (Hsub : l ⊆+ seq 0 n).
  { apply NoDup_submseteq; [done|]. intros k Hk. apply elem_of_seq.
    rewrite Forall_forall in Hall. specialize (Hall k Hk). lia. }
  apply submseteq_length in Hsub. rewrite length_seq in Hsub. lia.
Qed.

(** For each of the first [n] numbers one item with the property. *)
Lemma choose_upto {T : Type} (P : nat → T → Prop) (n : nat) :
  (∀ i, (i < n)%nat → ∃ x, P i x) →
  ∃ l, length l = n ∧ ∀ i x, l !! i = Some x → P i x.
Proof.
  induction n as [|n IH]; intros H.
  - exists []. split; [done|]. intros i x Hx. by rewrite lookup_nil in Hx.
  - destruct IH as (l & Hlen & Hl); [intros i Hi; apply H; lia|].
    destruct (H n ltac:(lia)) as [x Hx].
    exists (l ++ [x]). split; [rewrite length_app; simpl; lia|].
    intros i y Hy. apply lookup_app_Some in Hy as [Hy|[Hge Hy]]; [by apply Hl|].
    rewrite Hlen in Hge, Hy.
    destruct (i - n)%nat as [|d] eqn:Hd; simpl in Hy; [|by rewrite lookup_nil in Hy].
    injection Hy as <-. by replace i with n by lia.
Qed.



(** ** The bin probabilities on the machine *)

Lemma sign_clear_round_aux (m e : Z) (l : location) :
  sign_clear (binary_round_aux prec emax false m e l) = true.
Proof.
  unfold binary_round_aux.
  destruct (shr_fexp prec emax m e l) as [mrs' e'].
  destruct (shr_fexp prec emax _ e' loc_Exact) as [mrs'' e''].
  destruct (shr_m mrs''); [done| |done].
  by destruct (e'' <=? emax - prec).
Qed.

Lemma sign_clear_add (x y : spec_float) :
  sign_clear x = true → sign_clear y = true →
  sign_clear (SFadd prec emax x y) = true.
Proof.
  destruct x as [[]|[]| |[] mx ex], y as [[]|[]| |[] my ey]; try done.
  intros _ _. unfold SFadd. cbn [cond_Zopp]. cbv zeta.
  change (Z.pos ?a + Z.pos ?b) with (Z.pos (a + b)). unfold binary_normalize, binary_round.
  destruct (shl_align _ _ _) as [mz ez]. apply sign_clear_round_aux.
Qed.

Lemma sign_clear_div (x y : spec_float) :
  sign_clear x = true → sign_clear y = true →
  sign_clear (SFdiv prec emax x y) = true.
Proof.
  destruct x as [[]|[]| |[] mx ex], y as [[]|[]| |[] my ey]; try done.
  intros _ _. unfold SFdiv.
  destruct (SFdiv_core_binary prec emax (Z.pos mx) ex (Z.pos my) ey) as [[mz ez] lz].
  apply sign_clear_round_aux.
Qed.

Lemma sign_clear_mul (x y : spec_float) :
  sign_clear x = true → sign_clear y = true →
  sign_clear (SFmul prec emax x y) = true.
Proof.
  destruct x as [[]|[]| |[] mx ex], y as [[]|[]| |[] my ey]; try done.
  intros _ _. apply sign_clear_round_aux.
Qed.

Lemma unsigned_add (x y : float) :
  unsigned x = true → unsigned y = true → unsigned (x + y) = true.
Proof. unfold unsigned. rewrite add_spec. apply sign_clear_add. Qed.

Lemma unsigned_div (x y : float) :
  unsigned x = true → unsigned y = true → unsigned (x / y) = true.
Proof. unfold unsigned. rewrite div_spec. apply sign_clear_div. Qed.

Lemma unsigned_mul (x y : float) :
  unsigned x = true → unsigned y = true → unsigned (x * y) = true.
Proof. unfold unsigned. rewrite mul_spec. apply sign_clear_mul. Qed.

Lemma unsigned_not_below_zero (x : float) :
  unsigned x = true → (x <? 0)%float = false.
Proof.
  unfold unsigned. rewrite ltb_spec.
  replace (Prim2SF 0) with (S754_zero false) by reflexivity.
  by destruct (Prim2SF x) as [[]|[]| |[] m e].
Qed.

Lemma unsigned_np_sum (l : list float) :
  Forall (λ x, unsigned x = true) l → unsigned (np_sum binary64 (fl l)) = true.
Proof.
  unfold np_sum, fl. change (zero binary64) with 0%float.
  change (add binary64) with PrimFloat.add.
  assert (H0 : unsigned 0 = true) by reflexivity. revert H0.
  generalize 0%float as a. intros a Ha H. revert a Ha.
  induction H as [|x l Hx _ IH]; intros a Ha; simpl; [done|].
  apply IH. by apply unsigned_add.
Qed.



(** ** [main]: the bins of every snapshot, in every arithmetic *)

(** What [a[idx] = vals] has stored when it returns. *)
Lemma np_put2_returned {T V : Type} (cast : V → exc T)
    (idx : list (nat * nat)) :
  ∀ (a a' : list (list T)) (vals : list V),
    length vals = length idx → NoDup idx →
    np_put2 cast a idx vals = inr a' →
    (∀ (j : nat) p v, idx !! j = Some p → vals !! j = Some v →
       ∃ c, cast v = inr c ∧ lookup2 a' p.1 p.2 = Some c) ∧
    (∀ k t, (k, t) ∉ idx → lookup2 a' k t = lookup2 a k t).
Proof.
  unfold np_put2.
  induction idx as [|[k t] idx IH]; intros a a' [|v vals] Hlen Hnd Hrun;
    simpl in Hlen; try done.
  { rewrite decide_True in Hrun by done. simpl in Hrun. injection Hrun as <-.
    split; [|done]. intros j p w Hj. by rewrite lookup_nil in Hj. }
  rewrite decide_True in Hrun by (simpl; lia). simpl in Hrun.
  apply NoDup_cons in Hnd as [Hhead Hnd].
  apply bind_inr in Hrun as (a1 & H1 & Hrun).
  apply bind_inr in H1 as (row & Hrow & H1).
  apply bind_inr in H1 as (c & Hc & H1).
  apply bind_inr in H1 as (row' & Hrow' & H1).
  apply np_get_inr in Hrow as (k' & Hrow & Hk'). specialize (Hk' ltac:(lia)).
  rewrite Nat2Z.id in Hk'. subst k'.
  apply np_set_inr in Hrow' as (t' & Ht' & -> & Hteq). specialize (Hteq ltac:(lia)).
  rewrite Nat2Z.id in Hteq. subst t'.
  apply np_set_inr in H1 as (k' & Hk & -> & Hkeq). specialize (Hkeq ltac:(lia)).
  rewrite Nat2Z.id in Hkeq. subst k'.
  destruct (IH (<[k := <[t := c]> row]> a) a' vals) as [Hval' Hout'];
    [lia|done| |].
  { rewrite decide_True by lia. exact Hrun. }
  split.
  - intros [|j] p w Hj Hw; simpl in *.
    + injection Hj as <-. injection Hw as <-. simpl. exists c. split; [done|].
      rewrite (Hout' k t Hhead).
      rewrite (lookup2_set a k t row c k t Hrow Ht'). by rewrite decide_True.
    + by apply (Hval' j).
  - intros k0 t0 Hnot. apply not_elem_of_cons in Hnot as [Hne Hnot].
    rewrite (Hout' k0 t0 Hnot).
    rewrite (lookup2_set a k t row c k0 t0 Hrow Ht').
    rewrite decide_False; [done|]. intros [-> ->]. done.
Qed.

(** What lines 155-167 have computed when they return. *)
Lemma bin_trajectories_returned (A : Arith) (x_kt : list (list (num A)))
    (T_k : list Z) (T_max NBINS : Z) (res : bins A) (bin_kt : list (list Z)) :
  length x_kt = length T_k →
  Forall (λ row, Z.of_nat (length row) = T_max) x_kt →
  Forall (λ T, 0 ≤ T ≤ T_max) T_k →
  bin_trajectories A x_kt T_k (Z.of_nat (length T_k)) T_max NBINS
    = inr (res, bin_kt) →
  ∃ pooled,
    construct_nonuniform_bins A pooled NBINS = inr res ∧
    Z.of_nat (length pooled) = py_sum T_k ∧
    ∀ (k : nat) (T : Z), T_k !! k = Some T →
      (∀ t : nat, Z.of_nat t < T →
         ∃ (x v : num A) (i : Z),
           lookup2 x_kt k t = Some x ∧
           pooled !! Z.to_nat (prefix_sum T_k k + Z.of_nat t) = Some x ∧
           bin_n res !! Z.to_nat (prefix_sum T_k k + Z.of_nat t) = Some v ∧
           to_int A v = inr i ∧
           lookup2 bin_kt k t = Some i) ∧
      (∀ t : nat, T ≤ Z.of_nat t < T_max → lookup2 bin_kt k t = Some 0).
Proof.
  intros Hrows Hshape HT Hrun.
  assert (Hpos : Forall (Z.le 0) T_k).
  { eapply Forall_impl; [exact HT|]. simpl. lia. }
  unfold bin_trajectories, np_full2 in Hrun.
  rewrite (proj2 (Z.ltb_ge _ 0)) in Hrun by lia.
  destruct (Z.ltb_spec T_max 0) as [Hneg|HTmax]; [done|]. simpl in Hrun.
  rewrite Nat2Z.id, (mask_rows_spec T_max T_k HT) in Hrun. simpl in Hrun.
  unfold np_where2 in Hrun. rewrite where2_from_mask in Hrun.
  set (idx := pool_from 0 T_k) in *.
  assert (Hx : ∀ k t T, T_k !! k = Some T → Z.of_nat t < T →
            is_Some (lookup2 x_kt k t)).
  { intros k t T HTk Ht. apply lookup_lt_Some in HTk as Hk.
    destruct (lookup_lt_is_Some_2 x_kt k) as [row Hrow]; [lia|].
    pose proof (Forall_lookup_1 _ _ _ _ Hshape Hrow) as Hlen. simpl in Hlen.
    pose proof (Forall_lookup_1 _ _ _ _ HT HTk) as HTle. simpl in HTle.
    destruct (lookup_lt_is_Some_2 row t) as [v Hv]; [lia|].
    exists v. apply lookup2_Some. by exists row. }
  destruct (np_take2_spec x_kt idx) as (pooled & Hpooled & Hpool).
  { apply Forall_forall. intros [k t] Hin.
    apply elem_of_pool_from in Hin as (_ & T & HTk & Ht).
    rewrite Nat.sub_0_r in HTk. by apply (Hx k t T). }
  rewrite Hpooled in Hrun. simpl in Hrun.
  apply bind_inr in Hrun as (res' & Hres & Hrun).
  apply bind_inr in Hrun as (bin_kt' & Hput & Hrun).
  injection Hrun as -> ->.
  pose proof (Forall2_length _ _ _ Hpool) as Hlp.
  pose proof (length_pool_from 0 T_k Hpos) as Hli. fold idx in Hli.
  destruct (construct_nonuniform_bins_returned A pooled NBINS res Hres)
    as (_ & _ & Hlen & _).
  set (z := replicate (length T_k) (replicate (Z.to_nat T_max) 0)) in *.
  assert (Hz : ∀ k t, (k < length T_k)%nat → (t < Z.to_nat T_max)%nat →
            lookup2 z k t = Some 0).
  { intros k t Hk Ht. apply lookup2_Some. exists (replicate (Z.to_nat T_max) 0).
    split; by apply lookup_replicate_2. }
  destruct (np_put2_returned (to_int A) idx z bin_kt (bin_n res)) as [Hval Hout];
    [lia|apply NoDup_pool_from|exact Hput|].
  exists pooled. split; [done|]. split; [lia|].
  intros k T HTk. apply lookup_lt_Some in HTk as Hk.
  pose proof (Forall_lookup_1 _ _ _ _ HT HTk) as HTle. simpl in HTle.
  split.
  - intros t Ht.
    pose proof (pool_from_lookup 0 T_k k T (Z.of_nat t) Hpos HTk ltac:(lia)) as Hj.
    rewrite Nat2Z.id in Hj. simpl in Hj. fold idx in Hj.
    set (j := Z.to_nat (prefix_sum T_k k + Z.of_nat t)) in *.
    destruct (Forall2_lookup_l _ _ _ _ _ Hpool Hj) as (x & Hxj & Hxv).
    simpl in Hxv.
    apply lookup_lt_Some in Hxj as Hjlt.
    destruct (lookup_lt_is_Some_2 (bin_n res) j) as [v Hv]; [lia|].
    destruct (Hval j (k, t) v Hj Hv) as (i & Hi & Hb). simpl in Hb.
    by exists x, v, i.
  - intros t Ht. rewrite (Hout k t); [apply Hz; lia|].
    intros Hin. apply elem_of_pool_from in Hin as (_ & T' & HTk' & Ht').
    rewrite Nat.sub_0_r, HTk in HTk'. injection HTk' as <-. lia.
Qed.

(** The bin that the conversion to [int] makes of an entry of [bin_n]. *)
Lemma bin_of_assignment (A : Arith) (x_n : list (num A)) (nbins : Z)
    (res : bins A) (j : nat) (v : num A) (i : Z) :
  1 ≤ nbins →
  to_int A (zero A) = inr 0 →
  (∀ i v, 0 ≤ i < nbins → of_int A i = inr v → to_int A v = inr i) →
  construct_nonuniform_bins A x_n nbins = inr res →
  bin_n res !! j = Some v → to_int A v = inr i →
  0 ≤ i < nbins.
Proof.
  intros HB H0 H1 Hres Hv Hi.
  destruct (construct_nonuniform_bins_returned A x_n nbins res Hres)
    as (_ & _ & _ & Hok & _).
  destruct (Forall_lookup_1 _ _ _ _ Hok Hv) as [->|(i' & Hi' & Hof)].
  - rewrite H0 in Hi. injection Hi as <-. lia.
  - rewrite (H1 i' v Hi' Hof) in Hi. injection Hi as <-. lia.
Qed.

(** Lines 155-167 of [main] in every arithmetic in which [int] gives back
    the number of a bin from its float (binary64 does for up to [2^53] bins,
    see [int_of_float_of_Z]), whenever the lines return: the positions are
    pooled trajectory by trajectory, [bin_kt[k, t]] is the integer of the
    entry of [bin_n] for snapshot [t] of trajectory [k], a number in
    [0, NBINS), and past the snapshots read [bin_kt] stays [0]. *)
Theorem trajectories_get_their_bins (A : Arith) (x_kt : list (list (num A)))
    (T_k : list Z) (T_max NBINS : Z) (res : bins A) (bin_kt : list (list Z)) :
  length x_kt = length T_k →
  Forall (λ row, Z.of_nat (length row) = T_max) x_kt →
  Forall (λ T, 0 ≤ T ≤ T_max) T_k →
  1 ≤ NBINS →
  to_int A (zero A) = inr 0 →
  (∀ i v, 0 ≤ i < NBINS → of_int A i = inr v → to_int A v = inr i) →
  bin_trajectories A x_kt T_k (Z.of_nat (length T_k)) T_max NBINS
    = inr (res, bin_kt) →
  ∃ pooled,
    construct_nonuniform_bins A pooled NBINS = inr res ∧
    Z.of_nat (length pooled) = py_sum T_k ∧
    ∀ (k : nat) (T : Z), T_k !! k = Some T →
      (∀ t : nat, Z.of_nat t < T →
         ∃ (x v : num A) (i : Z),
           lookup2 x_kt k t = Some x ∧
           pooled !! Z.to_nat (prefix_sum T_k k + Z.of_nat t) = Some x ∧
           bin_n res !! Z.to_nat (prefix_sum T_k k + Z.of_nat t) = Some v ∧
           to_int A v = inr i ∧
           lookup2 bin_kt k t = Some i ∧ 0 ≤ i < NBINS) ∧
      (∀ t : nat, T ≤ Z.of_nat t < T_max → lookup2 bin_kt k t = Some 0).
Proof.
  intros Hrows Hshape HT HB H0 H1 Hrun.
  destruct (bin_trajectories_returned A x_kt T_k T_max NBINS res bin_kt
              Hrows Hshape HT Hrun) as (pooled & Hres & Hlen & Hbins).
  exists pooled. split; [done|]. split; [done|].
  intros k T HTk. destruct (Hbins k T HTk) as [Hin Hout]. split; [|exact Hout].
  intros t Ht. destruct (Hin t Ht) as (x & v & i & Hx & Hp & Hv & Hi & Hb).
  exists x, v, i. repeat (split; [done|]).
  by apply (bin_of_assignment A pooled NBINS res _ v i HB H0 H1 Hres Hv).
Qed.

Lemma trajectories_get_their_bins_witness :
  ∃ (res : bins binary64) (bin_kt : list (list Z)),
    bin_trajectories binary64 [fl [3; 1; 0]%float; fl [2; 0; 0]%float] [2; 1]
      (Z.of_nat (length [2; 1])) 3 2 = inr (res, bin_kt) ∧
    ∃ pooled,
      construct_nonuniform_bins binary64 pooled 2 = inr res ∧
      Z.of_nat (length pooled) = py_sum [2; 1] ∧
      ∀ (k : nat) (T : Z), [2; 1] !! k = Some T →
        (∀ t : nat, Z.of_nat t < T →
           ∃ (x v : num binary64) (i : Z),
             lookup2 [fl [3; 1; 0]%float; fl [2; 0; 0]%float] k t = Some x ∧
             pooled !! Z.to_nat (prefix_sum [2; 1] k + Z.of_nat t) = Some x ∧
             bin_n res !! Z.to_nat (prefix_sum [2; 1] k + Z.of_nat t) = Some v ∧
             to_int binary64 v = inr i ∧
             lookup2 bin_kt k t = Some i ∧ 0 ≤ i < 2) ∧
        (∀ t : nat, T ≤ Z.of_nat t < 3 → lookup2 bin_kt k t = Some 0).
Proof.
  destruct (bin_trajectories binary64 [fl [3; 1; 0]%float; fl [2; 0; 0]%float]
              [2; 1] (Z.of_nat (length [2; 1])) 3 2) as [e|[res bin_kt]] eqn:H.
  - exfalso.
    assert (Hc : ∃ v, snd <$> bin_trajectories binary64
               [fl [3; 1; 0]%float; fl [2; 0; 0]%float] [2; 1]
               (Z.of_nat (length [2; 1])) 3 2 = inr v)
      by (eexists; vm_compute; reflexivity).
    destruct Hc as [v Hc]. rewrite H in Hc. discriminate Hc.
  - exists res, bin_kt. split; [reflexivity|].
    apply (trajectories_get_their_bins binary64
             [fl [3; 1; 0]%float; fl [2; 0; 0]%float] [2; 1] 3 2 res bin_kt).
    + reflexivity.
    + repeat constructor.
    + repeat constructor; lia.
    + lia.
    + reflexivity.
    + intros i v Hi Hv.
      assert (Hcases : i = 0 ∨ i = 1) by lia.
      destruct Hcases as [-> | ->]; vm_compute in Hv; injection Hv as <-;
        reflexivity.
    + exact H.
Defined.

(** ** From the pooled bins to the histogram of a state *)

(** The two parts of [main] put together, in every arithmetic in which
    [int] gives back the number of a bin from its float. *)
Lemma every_state_is_counted_any (A : Arith) (L : Libm A)
    (x_kt : list (list (num A))) (T_k : list Z) (T_max NBINS : Z)
    (g_k f_i : list (num A)) (l : nat) (T : Z) (g : num A)
    (res : bins A) (bin_kt : list (list Z)) :
  length x_kt = length T_k →
  Forall (λ row, Z.of_nat (length row) = T_max) x_kt →
  Forall (λ T, 0 ≤ T ≤ T_max) T_k →
  1 ≤ NBINS →
  to_int A (zero A) = inr 0 →
  (∀ i v, 0 ≤ i < NBINS → of_int A i = inr v → to_int A v = inr i) →
  f_i ≠ [] →
  T_k !! l = Some T → 0 < T → g_k !! l = Some g →
  bin_trajectories A x_kt T_k (Z.of_nat (length T_k)) T_max NBINS
    = inr (res, bin_kt) →
  ∃ (row : list Z) (h : histograms A),
    bin_kt !! l = Some row ∧
    (∀ t : nat, Z.of_nat t < T →
       ∃ (v : num A) (i : Z),
         bin_n res !! Z.to_nat (prefix_sum T_k l + Z.of_nat t) = Some v ∧
         to_int A v = inr i ∧ row !! t = Some i) ∧
    compare_histograms A L NBINS bin_kt T_k g_k (Z.of_nat l) f_i = inr h ∧
    N_total h = np_sum A (N_i_observed h) ∧
    ∀ i, 0 ≤ i < NBINS →
      N_i_observed h !! Z.to_nat i
      = Some (count_up A (occupancy row (Z.to_nat T) i)).
Proof.
  intros Hrows Hshape HT HB H0 H1 Hne HTl HTpos Hg Hrun.
  destruct (bin_trajectories_returned A x_kt T_k T_max NBINS res bin_kt
              Hrows Hshape HT Hrun) as (pooled & Hres & _ & Hbins).
  destruct (Hbins l T HTl) as [Hin _].
  destruct (Hin 0%nat ltac:(lia)) as (_ & _ & i0 & _ & _ & _ & _ & Hl0).
  apply lookup2_Some in Hl0 as (row & Hrow & _).
  assert (Hrowt : ∀ t : nat, Z.of_nat t < T →
            ∃ (v : num A) (i : Z),
              bin_n res !! Z.to_nat (prefix_sum T_k l + Z.of_nat t) = Some v ∧
              to_int A v = inr i ∧ row !! t = Some i ∧ 0 ≤ i < NBINS).
  { intros t Ht. destruct (Hin t Ht) as (_ & v & i & _ & _ & Hv & Hi & Hl2).
    apply lookup2_Some in Hl2 as (row' & Hrow' & Hit).
    rewrite Hrow in Hrow'. injection Hrow' as <-.
    exists v, i. repeat (split; [done|]).
    by apply (bin_of_assignment A pooled NBINS res _ v i HB H0 H1 Hres Hv). }
  assert (Hlen : T ≤ Z.of_nat (length row)).
  { destruct (Hrowt (Z.to_nat (T - 1)) ltac:(lia)) as (_ & i & _ & _ & Hi & _).
    apply lookup_lt_Some in Hi. lia. }
  assert (Hall : Forall (λ b, 0 ≤ b < NBINS) (take (Z.to_nat T) row)).
  { apply Forall_lookup. intros t b Hb.
    apply lookup_take_Some in Hb as [Hb Ht].
    destruct (Hrowt t ltac:(lia)) as (_ & i & _ & _ & Hi & Hrange).
    rewrite Hb in Hi. by injection Hi as ->. }
  assert (Hrow' : bin_kt !! Z.to_nat (Z.of_nat l) = Some row) by (by rewrite Nat2Z.id).
  assert (Hg' : g_k !! Z.to_nat (Z.of_nat l) = Some g) by (by rewrite Nat2Z.id).
  assert (HTl' : T_k !! Z.to_nat (Z.of_nat l) = Some T) by (by rewrite Nat2Z.id).
  destruct (count_loop_any A NBINS bin_kt (Z.of_nat l) row T ltac:(lia) Hrow'
              ltac:(lia) Hall) as (N_i & HN & HlenN & Hcnt).
  destruct (uncertainty_loop_any A L NBINS g_k (Z.of_nat l) g ltac:(lia)
              ltac:(lia) Hg' N_i (np_sum A N_i) HlenN) as (dN_i & HdN & _).
  destruct f_i as [|f0 f']; [done|].
  exists row. eexists. split; [exact Hrow|]. split.
  { intros t Ht. destruct (Hrowt t Ht) as (v & i & Hv & Hi & Hr & _).
    by exists v, i. }
  unfold compare_histograms, bin_probabilities, np_zeros. simpl.
  rewrite (proj2 (Z.ltb_ge NBINS 0)) by lia. simpl.
  rewrite (np_get_in_range T_k (Z.of_nat l) T ltac:(lia) HTl'). simpl.
  rewrite HN. simpl. rewrite HdN. simpl.
  split; [done|]. simpl. split; [done|]. exact Hcnt.
Qed.

(** The two parts of [main] put together, on the machine (binary64, any
    [exp] and [log] of the C library, up to [2^53] bins): when the pooling
    and binning have returned, the check of a state that holds at least one
    snapshot returns too; its counting loop runs over the bins that the
    binning assigned to the snapshots of that state and never leaves the
    histogram, and the count of a bin is [0.0] increased by [1.0] once for
    each of those snapshots in the bin. *)
Theorem every_state_is_counted (e l0 : float → float)
    (x_kt : list (list float)) (T_k : list Z) (T_max NBINS : Z)
    (g_k f_i : list float) (l : nat) (T : Z) (g : float)
    (res : bins binary64) (bin_kt : list (list Z)) :
  length x_kt = length T_k →
  Forall (λ row, Z.of_nat (length row) = T_max) x_kt →
  Forall (λ T, 0 ≤ T ≤ T_max) T_k →
  1 ≤ NBINS ≤ 2 ^ 53 →
  f_i ≠ [] →
  T_k !! l = Some T → 0 < T → g_k !! l = Some g →
  bin_trajectories binary64 x_kt T_k (Z.of_nat (length T_k)) T_max NBINS
    = inr (res, bin_kt) →
  ∃ (row : list Z) (h : histograms binary64),
    bin_kt !! l = Some row ∧
    (∀ t : nat, Z.of_nat t < T →
       ∃ (v : float) (i : Z),
         bin_n res !! Z.to_nat (prefix_sum T_k l + Z.of_nat t) = Some v ∧
         int_of_float v = inr i ∧ row !! t = Some i ∧ 0 ≤ i < NBINS) ∧
    compare_histograms binary64 (binary64_libm e l0) NBINS bin_kt T_k (fl g_k)
      (Z.of_nat l) (fl f_i) = inr h ∧
    N_total h = np_sum binary64 (N_i_observed h) ∧
    ∀ i, 0 ≤ i < NBINS →
      N_i_observed h !! Z.to_nat i
      = Some (count_up binary64 (occupancy row (Z.to_nat T) i)).
Proof.
  intros Hrows Hshape HT HB Hne HTl HTpos Hg Hrun.
  assert (H1 : ∀ i v, 0 ≤ i < NBINS → of_int binary64 i = inr v →
             to_int binary64 v = inr i).
  { intros i v Hi. apply int_of_float_of_Z. lia. }
  destruct (every_state_is_counted_any binary64 (binary64_libm e l0) x_kt T_k
              T_max NBINS g_k f_i l T g res bin_kt Hrows Hshape HT ltac:(lia)
              int_of_float_zero H1 Hne HTl HTpos Hg Hrun)
    as (row & h & Hrow & Hbins & Hh & HN & Hcnt).
  destruct (bin_trajectories_returned binary64 x_kt T_k T_max NBINS res bin_kt
              Hrows Hshape HT Hrun) as (pooled & Hres & _ & _).
  exists row, h. split; [done|]. split; [|by split].
  intros t Ht. destruct (Hbins t Ht) as (v & i & Hv & Hi & Hr).
  exists v, i. repeat (split; [done|]).
  by apply (bin_of_assignment binary64 pooled NBINS res _ v i ltac:(lia)
              int_of_float_zero H1 Hres Hv).
Qed.

Lemma every_state_is_counted_witness :
  ∃ (res : bins binary64) (bin_kt : list (list Z)),
    bin_trajectories binary64 [[3; 1; 0]%float; [2; 0; 0]%float] [2; 1]
      (Z.of_nat (length [2; 1])) 3 2 = inr (res, bin_kt) ∧
    ∃ (row : list Z) (h : histograms binary64),
      bin_kt !! 0%nat = Some row ∧
      (∀ t : nat, Z.of_nat t < 2 →
         ∃ (v : float) (i : Z),
           bin_n res !! Z.to_nat (prefix_sum [2; 1] 0 + Z.of_nat t) = Some v ∧
           int_of_float v = inr i ∧ row !! t = Some i ∧ 0 ≤ i < 2) ∧
      compare_histograms binary64 (binary64_libm (λ x, x) (λ x, x)) 2 bin_kt
        [2; 1] (fl [1; 1]%float) (Z.of_nat 0) (fl [0; 0]%float) = inr h ∧
      N_total h = np_sum binary64 (N_i_observed h) ∧
      ∀ i, 0 ≤ i < 2 →
        N_i_observed h !! Z.to_nat i
        = Some (count_up binary64 (occupancy row (Z.to_nat 2) i)).
Proof.
  destruct (bin_trajectories binary64 [[3; 1; 0]%float; [2; 0; 0]%float]
              [2; 1] (Z.of_nat (length [2; 1])) 3 2) as [e|[res bin_kt]] eqn:H.
  - exfalso.
    assert (Hc : ∃ v, snd <$> bin_trajectories binary64
               [[3; 1; 0]%float; [2; 0; 0]%float] [2; 1]
               (Z.of_nat (length [2; 1])) 3 2 = inr v)
      by (eexists; vm_compute; reflexivity).
    destruct Hc as [v Hc]. rewrite H in Hc. discriminate Hc.
  - exists res, bin_kt. split; [reflexivity|].
    apply (every_state_is_counted (λ x, x) (λ x, x)
             [[3; 1; 0]%float; [2; 0; 0]%float] [2; 1] 3 2
             [1; 1]%float [0; 0]%float 0%nat 2 1%float res bin_kt).
    + reflexivity.
    + repeat constructor.
    + repeat constructor; lia.
    + split; [lia|]. vm_compute. discriminate.
    + discriminate.
    + reflexivity.
    + lia.
    + reflexivity.
    + exact H.
Defined.

(** ** The observed PMF of the occupied bins *)


